(** * NotifyMe: notification store, delivery guard and source monitors

    A shallow embedding of the polling core of NotifyMe:

    - [internal/scheduler/scheduler.go]: the bounded list of recent
      notifications ([addNotifications], [loadNotifications],
      [saveNotificationsWithData], [GetRecentNotifications], [checkLd246]);
    - [internal/notifier/windows.go]: the delivery guard ([Notify],
      [NotifyBatch]);
    - [internal/monitor]: the GitHub monitor ([FetchNotificationsSince]) and
      the ld246 monitor ([FetchRecentReplies], [FetchUnreadMessages],
      [fetchNotificationsByType]);
    - [internal/logger] ([removeANSICodes]), [internal/config]
      ([validateConfig], [Load], [Save], [Get]) and [app.go] ([NewApp],
      [SaveConfig]), with [UpdateConfig] of the scheduler.

    Conventions.  A Go [string] is a [string] (a sequence of bytes), an
    [int]/[int64] is a [Z], a [map[string]bool] is a [gmap string bool] read
    through [mapGet] (a missing key reads [false]), a slice is a [list].
    [fmt.Sprintf] with the verbs [%s] and [%d] is string concatenation and
    decimal printing ([pretty]); the cause wrapped in an error by [%w] is
    left out of its message.  Functions of the Go standard library
    (encoding/json, net/http, net/url, time, strings) are the fields of the
    classes [StringsLib], [UrlLib], [GitHub.Lib], [Ld246.Lib] and
    [Scheduler.Lib], by which the definitions are parameterised; the remote
    services, the clock, the disk and the toast sink are explicit arguments,
    and every operation returns the state it leaves.  The code is read as
    run by one goroutine at a time. *)

From Stdlib Require Import ZArith Ascii.
From stdpp Require Import gmap strings list fin_maps pretty.

Open Scope string_scope.
Open Scope list_scope.
Open Scope Z_scope.

(** ** pkg/types/notification.go *)

Record Notification := mkNotification {
  ID : string;
  Title : string;
  Content : string;
  Link : string;
  Source : string;
  Time : Z
}.

#[global] Instance Notification_eq_dec : EqDecision Notification.
Proof. solve_decision. Defined.

(** A Go [error] value carries its message; [Result] is the pair
    [(value, error)] that the fetch operations return. *)
Inductive Result (A : Type) :=
| Ok (a : A)
| Err (msg : string).
Arguments Ok {A} a.
Arguments Err {A} msg.

Definition isErr {A} (r : Result A) : bool :=
  match r with Ok _ => false | Err _ => true end.

(** Reading a [map[string]bool]: the zero value [false] for a missing key. *)
Definition mapGet (m : gmap string bool) (k : string) : bool :=
  default false (m !! k).

(** ** The environment: disk, remote services

    A path is the list of its components, so that [filepath.Join] is
    concatenation and [filepath.Dir] drops the last component.  The disk
    holds directories and file contents; the three flags make [os.MkdirAll],
    [os.WriteFile] and [os.ReadFile] fail. *)

Definition Path := list string.

Record Disk := mkDisk {
  dirs : gset (list string);
  files : gmap (list string) string;
  UserHomeDir : Result (list string);
  mkdirFails : bool;
  writeFails : bool;
  readFails : bool
}.

Module os.

(** [_, err := os.Stat(p); err == nil] *)
Definition Stat (d : Disk) (p : Path) : bool :=
  bool_decide (p ∈ dirs d) || bool_decide (is_Some (files d !! p)).

Definition MkdirAll (d : Disk) (p : Path) : Disk * option string :=
  if mkdirFails d then (d, Some "mkdir")
  else (mkDisk ({[p]} ∪ dirs d) (files d) (UserHomeDir d)
               (mkdirFails d) (writeFails d) (readFails d), None).

Definition WriteFile (d : Disk) (p : Path) (data : string) : Disk * option string :=
  if writeFails d then (d, Some "write")
  else (mkDisk (dirs d) (<[p := data]> (files d)) (UserHomeDir d)
               (mkdirFails d) (writeFails d) (readFails d), None).

Definition ReadFile (d : Disk) (p : Path) : Result string :=
  if readFails d then Err "read"
  else match files d !! p with
       | Some data => Ok data
       | None => Err "open"
       end.

End os.

Module filepath.

Definition Join (a : Path) (b : list string) : Path := a ++ b.

Definition Dir (p : Path) : Path := removelast p.

End filepath.

(** An HTTP request as the code builds it, and what [httpClient.Do] gives
    back: a transport error, or a response whose body may fail to be read. *)
Record Request := mkRequest {
  Method : string;
  URL : string;
  ReqHeader : list (string * string)
}.

Record Response := mkResponse {
  StatusCode : Z;
  RespHeader : gmap string string;
  Body : Result string
}.

(** [resp.Header.Get(k)]: the empty string when the header is absent. *)
Definition HeaderGet (r : Response) (k : string) : string :=
  default "" (RespHeader r !! k).

Definition StatusOK : Z := 200.
Definition StatusNotModified : Z := 304.
Definition StatusUnauthorized : Z := 401.
Definition StatusForbidden : Z := 403.

(** ** The helpers at the end of ld246.go *)

(** [truncateString]: [s[:maxLen] + "..."] when [len(s) > maxLen]. *)
Definition truncateString (s : string) (maxLen : nat) : string :=
  if (String.length s <=? maxLen)%nat then s
  else String.substring 0 maxLen s +:+ "...".

(** The inner scan of [stripHTML]: [start] is the last ['<'] met so far, and
    the scan stops at the first ['>'] that follows one. *)
Fixpoint scanTag (s : string) (i : nat) (start : option nat) : option (nat * nat) :=
  match s with
  | EmptyString => None
  | String c rest =>
      let start' := if Ascii.eqb c "<"%char then Some i else start in
      match start' with
      | Some st =>
          if Ascii.eqb c ">"%char then Some (st, i)
          else scanTag rest (S i) start'
      | None => scanTag rest (S i) start'
      end
  end.

(** The outer loop of [stripHTML]; every round removes a tag, so
    [String.length html] rounds are enough. *)
Fixpoint stripTags (rounds : nat) (result : string) : string :=
  match rounds with
  | O => result
  | S k =>
      match scanTag result 0 None with
      | Some (start, end_) =>
          if (start <? end_)%nat
          then stripTags k (String.substring 0 start result
                 +:+ String.substring (S end_) (String.length result - S end_) result)
          else result
      | None => result
      end
  end.

(** [strings.ReplaceAll] and [strings.TrimSpace]. *)
Class StringsLib := {
  ReplaceAll : string → string → string → string;
  TrimSpace : string → string
}.

Definition stripHTML {STR : StringsLib} (html : string) : string :=
  let result := stripTags (String.length html) html in
  let result := ReplaceAll result "&lt;" "<" in
  let result := ReplaceAll result "&gt;" ">" in
  let result := ReplaceAll result "&amp;" "&" in
  let result := ReplaceAll result "&quot;" (String (Ascii.ascii_of_nat 34) "") in
  let result := ReplaceAll result "&#39;" "'" in
  let result := ReplaceAll result "&nbsp;" " " in
  TrimSpace result.

(** [http.NewRequest(method, url, nil)], which fails when the URL does not
    parse ([url.Parse]). *)
Class UrlLib := {
  validURL : string → bool;
  QueryEncode : list (string * string) → string
}.

Definition NewRequest {UL : UrlLib} (method url : string) : Result Request :=
  if validURL url then Ok (mkRequest method url []) else Err "parse".

(** [req.Header.Set(k, v)] *)
Definition HeaderSet (req : Request) (k v : string) : Request :=
  mkRequest (Method req) (URL req) (ReqHeader req ++ [(k, v)]).

Definition HttpClient := Request → Result Response.

(** * internal/notifier/windows.go: the delivery guard *)

Module Notifier.

(** [toast.Action] and [toast.Notification], the argument of the sink. *)
Record Action := mkAction {
  ActionType : string;
  Label : string;
  Arguments_ : string
}.

Record Toast := mkToast {
  AppID : string;
  ToastTitle : string;
  Message : string;
  Actions : list Action;
  ActivationType : string
}.

(** The notifier together with the log of the calls of the sink
    ([toast.Notification.Push]) made so far in this process, each with the
    identifier of the notification it was made for. *)
Record WindowsNotifier := mkNotifier {
  notifiedIDs : gmap string bool;
  iconPath : string;
  pushed : list (string * Toast)
}.

Definition NewWindowsNotifier (icon : string) : WindowsNotifier :=
  mkNotifier ∅ icon [].

Section Sink.
(** [Push k t]: the outcome of the [k]-th call of the sink in this
    process, on toast [t]; [None] is success. *)
Variable Push : nat → Toast → option string.
(** [filepath.Abs] *)
Variable Abs : string → Result string.

Definition buildToast (n : WindowsNotifier) (notification : Notification) : Toast :=
  let title := Title notification in
  let message :=
    if String.eqb (Content notification) "" then "点击查看详情"
    else Content notification in
  let appID :=
    if negb (String.eqb (iconPath n) "")
    then match Abs (iconPath n) with
         | Ok absIconPath => absIconPath
         | Err _ => "NotifyMe"
         end
    else "NotifyMe" in
  mkToast appID title message
          [mkAction "protocol" "打开" (Link notification)] "protocol".

Definition Notify (n : WindowsNotifier) (notification : Notification)
    : WindowsNotifier * option string :=
  if mapGet (notifiedIDs n) (ID notification) then (n, None)
  else
    let notificationToast := buildToast n notification in
    let call := (ID notification, notificationToast) in
    match Push (length (pushed n)) notificationToast with
    | Some err =>
        (mkNotifier (notifiedIDs n) (iconPath n) (pushed n ++ [call]),
         Some ("发送通知失败: " +:+ err))
    | None =>
        (mkNotifier (<[ID notification := true]> (notifiedIDs n)) (iconPath n)
                    (pushed n ++ [call]),
         None)
    end.

Definition NotifyBatch (n : WindowsNotifier) (notifications : list Notification)
    : WindowsNotifier * option string :=
  (foldl (λ n notification, (Notify n notification).1) n notifications, None).

Definition IsNotified (n : WindowsNotifier) (id : string) : bool :=
  mapGet (notifiedIDs n) id.

Definition ClearNotified (n : WindowsNotifier) : WindowsNotifier :=
  mkNotifier ∅ (iconPath n) (pushed n).
End Sink.

End Notifier.

(** * internal/monitor/github.go *)

Module GitHub.

(** [lastModified] is a [time.Time], held as the seconds elapsed since
    January 1 of year 1 (UTC), the zero value of the type. *)
Record GitHubMonitor := mkMonitor {
  baseURL : string;
  token : string;
  lastModified : Z
}.

Definition NewGitHubMonitor (token : string) : GitHubMonitor :=
  mkMonitor "https://api.github.com" token 0.

Definition IsZero (t : Z) : bool := t =? 0.
Definition unixToInternal : Z := 62135596800.
Definition Unix (t : Z) : Z := t - unixToInternal.

(** One element of the decoded response of [GET /notifications]. *)
Record item := mkItem {
  itemID : string;
  RepositoryFullName : string;
  SubjectTitle : string;
  SubjectType : string;
  SubjectURL : string;
  UpdatedAt : Z;
  HTMLURL : string
}.

Record release := mkRelease {
  TagName : string;
  ReleaseHTMLURL : string
}.

(** [time.Format], [http.ParseTime] and [json.Unmarshal] at the two
    response types. *)
Class Lib := {
  FormatRFC3339 : Z → string;
  FormatHTTP : Z → string;
  ParseTime : string → Result Z;
  UnmarshalItems : string → Result (list item);
  UnmarshalRelease : string → Result release
}.

Section Fetch.
Context {STR : StringsLib} {UL : UrlLib} {GL : Lib}.

Definition authorize (m : GitHubMonitor) (req : Request) : Request :=
  HeaderSet (HeaderSet req "Authorization" ("token " +:+ token m))
            "Accept" "application/vnd.github.v3+json".

(** [convertReleaseAPIToHTML]: the requests made and the link. *)
Definition convertReleaseAPIToHTML (Do : HttpClient) (m : GitHubMonitor)
    (apiURL repoFullName : string) : list Request * string :=
  if String.eqb apiURL "" then ([], "")
  else
    match NewRequest "GET" apiURL with
    | Err _ => ([], "")
    | Ok req =>
        let req := authorize m req in
        match Do req with
        | Err _ => ([req], "")
        | Ok resp =>
            if negb (StatusCode resp =? StatusOK) then ([req], "")
            else
              match Body resp with
              | Err _ => ([req], "")
              | Ok bodyBytes =>
                  match UnmarshalRelease bodyBytes with
                  | Err _ => ([req], "")
                  | Ok release =>
                      if negb (String.eqb (ReleaseHTMLURL release) "")
                      then ([req], ReleaseHTMLURL release)
                      else if negb (String.eqb (TagName release) "")
                      then ([req], "https://github.com/" +:+ repoFullName
                                     +:+ "/releases/tag/" +:+ TagName release)
                      else ([req], "")
                  end
              end
        end
    end.

Definition convertGitHubAPIToHTML (Do : HttpClient) (m : GitHubMonitor)
    (apiURL subjectType repoFullName : string) : list Request * string :=
  if String.eqb apiURL "" then ([], "")
  else if String.eqb subjectType "Release"
  then convertReleaseAPIToHTML Do m apiURL repoFullName
  else if (22 <=? String.length apiURL)%nat
          && String.eqb (String.substring 0 22 apiURL) "https://api.github.com"
  then
    let path := String.substring 22 (String.length apiURL - 22) apiURL in
    let htmlURL :=
      if (7 <=? String.length path)%nat
         && String.eqb (String.substring 0 7 path) "/repos/"
      then "https://github.com/"
             +:+ String.substring 7 (String.length path - 7) path
      else "https://github.com" +:+ path in
    ([], ReplaceAll htmlURL "/pulls/" "/pull/")
  else ([], apiURL).

(** The body of the loop that turns the items into notifications. *)
Definition convertItem (Do : HttpClient) (m : GitHubMonitor)
    (acc : list Request * list Notification) (it : item)
    : list Request * list Notification :=
  let title := "[" +:+ RepositoryFullName it +:+ "] " +:+ SubjectTitle it in
  let content := truncateString (SubjectTitle it) 100 in
  let '(reqs, link) :=
    convertGitHubAPIToHTML Do m (SubjectURL it) (SubjectType it)
                           (RepositoryFullName it) in
  let link := if String.eqb link "" then HTMLURL it else link in
  (acc.1 ++ reqs,
   acc.2 ++ [mkNotification ("github_" +:+ itemID it) title content link
                            "github" (Unix (UpdatedAt it))]).

(** The update of the cursor from the [Last-Modified] header. *)
Definition updateLastModified (m : GitHubMonitor) (resp : Response)
    : GitHubMonitor :=
  let lastModifiedHeader := HeaderGet resp "Last-Modified" in
  if negb (String.eqb lastModifiedHeader "")
  then match ParseTime lastModifiedHeader with
       | Ok parsedTime => mkMonitor (baseURL m) (token m) parsedTime
       | Err _ => m
       end
  else m.

(** The request of [FetchNotificationsSince]: the [since] parameter and the
    [If-Modified-Since] header carry [since], or the cursor when [since] is
    zero, unless that is zero too. *)
Definition buildRequest (m : GitHubMonitor) (since : Z) : Result Request :=
  if negb (validURL (baseURL m +:+ "/notifications")) then Err "解析 URL 失败"
  else
    let lastModified := if negb (IsZero since) then since else lastModified m in
    let query :=
      if negb (IsZero lastModified)
      then [("since", FormatRFC3339 lastModified)] else [] in
    let rawQuery := QueryEncode query in
    let reqURL :=
      if String.eqb rawQuery "" then baseURL m +:+ "/notifications"
      else baseURL m +:+ "/notifications?" +:+ rawQuery in
    match NewRequest "GET" reqURL with
    | Err _ => Err "创建请求失败"
    | Ok req =>
        let req := authorize m req in
        Ok (if negb (IsZero lastModified)
            then HeaderSet req "If-Modified-Since" (FormatHTTP lastModified)
            else req)
    end.

(** What [FetchNotificationsSince] does with the response: the monitor
    afterwards, the further requests sent and the returned pair. *)
Definition handleResponse (Do : HttpClient) (m : GitHubMonitor) (resp : Response)
    : GitHubMonitor * list Request * Result (list Notification) :=
  if StatusCode resp =? StatusNotModified
  then (updateLastModified m resp, [], Ok [])
  else
    match Body resp with
    | Err _ => (m, [], Err "读取响应失败")
    | Ok bodyBytes =>
        if negb (StatusCode resp =? StatusOK)
        then (m, [],
              Err ("API 返回错误状态码 " +:+ pretty (StatusCode resp)
                   +:+ ": " +:+ bodyBytes))
        else
          let m := updateLastModified m resp in
          match UnmarshalItems bodyBytes with
          | Err _ => (m, [], Err "解析响应失败")
          | Ok notifications =>
              let '(reqs, result) :=
                foldl (convertItem Do m) ([], []) notifications in
              (m, reqs, Ok result)
          end
    end.

(** [FetchNotificationsSince]: the monitor afterwards, the requests sent
    and the returned pair. *)
Definition FetchNotificationsSince (Do : HttpClient) (m : GitHubMonitor)
    (since : Z) : GitHubMonitor * list Request * Result (list Notification) :=
  if String.eqb (token m) "" then (m, [], Err "GitHub token 未设置")
  else
    match buildRequest m since with
    | Err err => (m, [], Err err)
    | Ok req =>
        match Do req with
        | Err _ => (m, [req], Err "请求失败")
        | Ok resp =>
            let '(m, reqs, result) := handleResponse Do m resp in
            (m, req :: reqs, result)
        end
    end.

End Fetch.

End GitHub.

(** * internal/monitor/ld246.go *)

Module Ld246.

Record articleState := mkState {
  LastUpdateTime : Z;
  CommentCount : Z
}.

#[global] Instance articleState_eq_dec : EqDecision articleState.
Proof. solve_decision. Defined.

Record Ld246Monitor := mkMonitor {
  baseURL : string;
  token : string;
  seenArticles : gmap string articleState;
  seenMessages : gmap string bool;
  stateFilePath : Path;
  messagesStateFilePath : Path
}.

(** The decoded response of [GET /api/v2/articles/latest/reply?p=1]. *)
Record article := mkArticle {
  OID : string;
  ArticleTitle : string;
  ArticlePreviewContent : string;
  ArticleCreateTime : Z;
  ArticleUpdateTime : Z;
  ArticleCommentCount : Z
}.

Record articlesResp := mkArticlesResp {
  aCode : Z;
  Articles : list article;
  aMsg : string
}.

(** The decoded response of [GET /api/v2/notifications/unread/count]; of
    its thirteen counters the code reads these six. *)
Record countResp := mkCountResp {
  cCode : Z;
  UnreadNotificationCnt : Z;
  UnreadCommentedNotificationCnt : Z;
  UnreadAtNotificationCnt : Z;
  UnreadReplyNotificationCnt : Z;
  UnreadChatNotificationCnt : Z;
  UnreadFollowingNotificationCnt : Z;
  cMsg : string
}.

(** The decoded response of [GET /api/v2/notifications/{type}?p=1]. *)
Record message := mkMessage {
  msgID : string;
  Msg : string;
  DataType : Z;
  DataID : string;
  CreatedTime : Z;
  HasRead : bool
}.

Record messagesResp := mkMessagesResp {
  mCode : Z;
  Data : list message;
  mMsg : string
}.

(** [json.MarshalIndent], [json.Marshal] and [json.Unmarshal] at the types
    of the two state files and of the three responses. *)
Class Lib := {
  MarshalArticleStates : gmap string articleState → Result string;
  UnmarshalArticleStates : string → Result (gmap string articleState);
  MarshalMessageIDs : list string → Result string;
  UnmarshalMessageIDs : string → Result (list string);
  UnmarshalArticles : string → Result articlesResp;
  UnmarshalCount : string → Result countResp;
  UnmarshalMessages : string → Result messagesResp
}.

(** [getStateFilePath] and [getMessagesStateFilePath], which differ in the
    file name only.  The current directory [.] is the empty path. *)
Definition getFilePath (d : Disk) (name : string) : Disk * Path :=
  let stateDir := filepath.Join [] ["data"] in
  if os.Stat d stateDir then (d, filepath.Join stateDir [name])
  else
    match UserHomeDir d with
    | Ok homeDir =>
        let dataDir := filepath.Join homeDir [".notifyme"; "data"] in
        ((os.MkdirAll d dataDir).1, filepath.Join dataDir [name])
    | Err _ => (d, filepath.Join stateDir [name])
    end.

Definition getStateFilePath (d : Disk) : Disk * Path :=
  getFilePath d "ld246_seen_articles.json".

Definition getMessagesStateFilePath (d : Disk) : Disk * Path :=
  getFilePath d "ld246_seen_messages.json".

Section Monitor.
Context {STR : StringsLib} {UL : UrlLib} {LL : Lib}.

Definition withSeenArticles (m : Ld246Monitor)
    (seen : gmap string articleState) : Ld246Monitor :=
  mkMonitor (baseURL m) (token m) seen (seenMessages m)
            (stateFilePath m) (messagesStateFilePath m).

Definition withSeenMessages (m : Ld246Monitor)
    (seen : gmap string bool) : Ld246Monitor :=
  mkMonitor (baseURL m) (token m) (seenArticles m) seen
            (stateFilePath m) (messagesStateFilePath m).

Definition loadSeenArticles (m : Ld246Monitor) (d : Disk) : Ld246Monitor :=
  if negb (os.Stat d (stateFilePath m)) then withSeenArticles m ∅
  else
    match os.ReadFile d (stateFilePath m) with
    | Err _ => withSeenArticles m ∅
    | Ok data =>
        match UnmarshalArticleStates data with
        | Err _ => withSeenArticles m ∅
        | Ok articles => withSeenArticles m articles
        end
    end.

Definition saveSeenArticles (m : Ld246Monitor) (d : Disk) : Disk :=
  match MarshalArticleStates (seenArticles m) with
  | Err _ => d
  | Ok data =>
      match os.MkdirAll d (filepath.Dir (stateFilePath m)) with
      | (_, Some _) => d
      | (d, None) => (os.WriteFile d (stateFilePath m) data).1
      end
  end.

Definition loadSeenMessages (m : Ld246Monitor) (d : Disk) : Ld246Monitor :=
  if negb (os.Stat d (messagesStateFilePath m)) then withSeenMessages m ∅
  else
    match os.ReadFile d (messagesStateFilePath m) with
    | Err _ => withSeenMessages m ∅
    | Ok data =>
        match UnmarshalMessageIDs data with
        | Err _ => withSeenMessages m ∅
        | Ok messageIDs =>
            withSeenMessages m
              (foldl (λ seen id, <[id := true]> seen) ∅ messageIDs)
        end
    end.

(** The keys are written in the iteration order of the map. *)
Definition saveSeenMessages (m : Ld246Monitor) (d : Disk) : Disk :=
  let messageIDs := (map_to_list (seenMessages m)).*1 in
  match MarshalMessageIDs messageIDs with
  | Err _ => d
  | Ok data =>
      match os.MkdirAll d (filepath.Dir (messagesStateFilePath m)) with
      | (_, Some _) => d
      | (d, None) => (os.WriteFile d (messagesStateFilePath m) data).1
      end
  end.

Definition NewLd246Monitor (token : string) (d : Disk) : Ld246Monitor * Disk :=
  let '(d, statePath) := getStateFilePath d in
  let '(d, messagesPath) := getMessagesStateFilePath d in
  let m := mkMonitor "https://ld246.com" token ∅ ∅ statePath messagesPath in
  let m := loadSeenArticles m d in
  let m := loadSeenMessages m d in
  (m, d).

(** The request of the three operations: the [Authorization] header is
    set only when the token is not empty. *)
Definition prepare (m : Ld246Monitor) (req : Request) : Request :=
  let req :=
    if negb (String.eqb (token m) "")
    then HeaderSet req "Authorization" ("token " +:+ token m)
    else req in
  HeaderSet req "User-Agent" "NotifyMe/1.0".

(** The status checks shared by the three operations; [None] lets the
    response through. *)
Definition checkStatus (resp : Response) : option string :=
  if StatusCode resp =? StatusUnauthorized
  then Some "需要登录，请设置有效的 API Token"
  else if StatusCode resp =? StatusForbidden
  then Some "权限不足"
  else if negb (StatusCode resp =? StatusOK)
  then Some ("API 返回错误状态码 " +:+ pretty (StatusCode resp) +:+ ": "
             +:+ match Body resp with Ok body => body | Err _ => "" end)
  else None.

(** The part that the three operations share: build the request, send it,
    check the status and read the body.  The requests sent and the body. *)
Definition httpGet (Do : HttpClient) (m : Ld246Monitor) (url : string)
    : list Request * Result string :=
  match NewRequest "GET" url with
  | Err _ => ([], Err "创建请求失败")
  | Ok req =>
      let req := prepare m req in
      match Do req with
      | Err _ => ([req], Err "请求失败")
      | Ok resp =>
          match checkStatus resp with
          | Some err => ([req], Err err)
          | None =>
              match Body resp with
              | Err _ => ([req], Err "读取响应体失败")
              | Ok bodyBytes => ([req], Ok bodyBytes)
              end
          end
      end
  end.

(** [timeValue]: the update time, or the creation time when it is zero. *)
Definition timeValueOf (it : article) : Z :=
  if ArticleUpdateTime it =? 0 then ArticleCreateTime it
  else ArticleUpdateTime it.

(** The accumulators of the reconciliation loop. *)
Record reconcileState := mkReconcile {
  newNotifications : list Notification;
  updatedArticles : gmap string articleState
}.

(** One iteration of the loop that compares the listing with
    [m.seenArticles]. *)
Definition reconcileStep (m : Ld246Monitor) (st : reconcileState)
    (it : article) : reconcileState :=
  let timeValue := timeValueOf it in
  let seen := seenArticles m !! OID it in
  let isNew :=
    match seen with
    | None => true
    | Some seenState =>
        (timeValue >? LastUpdateTime seenState)
        || (ArticleCommentCount it >? CommentCount seenState)
    end in
  if negb isNew then st
  else
    let content := truncateString (stripHTML (ArticlePreviewContent it)) 100 in
    let content := if String.eqb content "" then ArticleTitle it else content in
    let hasNewReply :=
      match seen with
      | None => false
      | Some seenState =>
          (timeValue >? LastUpdateTime seenState)
          || (ArticleCommentCount it >? CommentCount seenState)
      end in
    let title :=
      if hasNewReply then "有新回帖: " +:+ ArticleTitle it else ArticleTitle it in
    let notificationID :=
      if hasNewReply
      then "ld246_article_" +:+ OID it +:+ "_" +:+ pretty timeValue
      else "ld246_article_" +:+ OID it in
    let notification :=
      mkNotification notificationID title content
                     (baseURL m +:+ "/article/" +:+ OID it) "ld246" timeValue in
    mkReconcile (newNotifications st ++ [notification])
                (<[OID it := mkState timeValue (ArticleCommentCount it)]>
                   (updatedArticles st)).

(** The three loops that rewrite [m.seenArticles] under the write lock. *)
Definition rewriteSeen (seen updated : gmap string articleState)
    (articles : list article) : gmap string articleState :=
  let currentArticleIDs :=
    foldl (λ ids it, <[OID it := true]> ids) (∅ : gmap string bool) articles in
  let seen := map_fold (λ id state seen, <[id := state]> seen) seen updated in
  let seen :=
    foldl (λ seen it,
             match updated !! OID it with
             | Some _ => seen
             | None =>
                 <[OID it := mkState (timeValueOf it) (ArticleCommentCount it)]> seen
             end) seen articles in
  filter (λ kv, mapGet currentArticleIDs kv.1 = true) seen.

Definition FetchRecentReplies (Do : HttpClient) (m : Ld246Monitor) (d : Disk)
    : Ld246Monitor * Disk * list Request * Result (list Notification) :=
  let url := baseURL m +:+ "/api/v2/articles/latest/reply?p=1" in
  match httpGet Do m url with
  | (reqs, Err err) => (m, d, reqs, Err err)
  | (reqs, Ok bodyBytes) =>
      match UnmarshalArticles bodyBytes with
      | Err _ => (m, d, reqs, Err "解析响应失败")
      | Ok apiResp =>
          if negb (aCode apiResp =? 0)
          then (m, d, reqs, Err ("API 返回错误: " +:+ aMsg apiResp))
          else
            let st := foldl (reconcileStep m) (mkReconcile [] ∅)
                            (Articles apiResp) in
            let m := withSeenArticles m
                       (rewriteSeen (seenArticles m) (updatedArticles st)
                                    (Articles apiResp)) in
            (m, saveSeenArticles m d, reqs, Ok (newNotifications st))
      end
  end.

(** The title chosen from the category. *)
Definition titleOf (notificationType : string) : string :=
  if String.eqb notificationType "commented" then "收到回帖"
  else if String.eqb notificationType "at" then "提及我的"
  else if String.eqb notificationType "reply" then "收到回复"
  else if String.eqb notificationType "following" then "我关注的"
  else if String.eqb notificationType "chat" then "聊天消息"
  else "新消息".

Definition linkOf (m : Ld246Monitor) (it : message) : string :=
  if negb (String.eqb (DataID it) "")
  then
    if (DataType it =? 3) || (DataType it =? 33) || (DataType it =? 34)
       || (DataType it =? 35)
    then baseURL m +:+ "/article/" +:+ DataID it
    else if (DataType it =? 4) || (DataType it =? 9) || (DataType it =? 15)
            || (DataType it =? 16) || (DataType it =? 20) || (DataType it =? 22)
    then baseURL m +:+ "/article/" +:+ DataID it
    else baseURL m
  else baseURL m.

(** One iteration of the loop over the messages of a category; the
    accumulators are [newNotifications] and [newMessageIDs]. *)
Definition messageStep (m : Ld246Monitor) (notificationType : string)
    (acc : list Notification * list string) (it : message)
    : list Notification * list string :=
  if HasRead it then acc
  else
    let messageID := notificationType +:+ "_" +:+ msgID it in
    if mapGet (seenMessages m) messageID then acc
    else
      let content := truncateString (Msg it) 100 in
      let notification :=
        mkNotification ("ld246_" +:+ notificationType +:+ "_" +:+ msgID it)
                       (titleOf notificationType) content (linkOf m it)
                       "ld246" (CreatedTime it) in
      (acc.1 ++ [notification], acc.2 ++ [messageID]).

Definition fetchNotificationsByType (Do : HttpClient) (m : Ld246Monitor)
    (d : Disk) (notificationType : string)
    : Ld246Monitor * Disk * list Request * Result (list Notification) :=
  let url := baseURL m +:+ "/api/v2/notifications/" +:+ notificationType
             +:+ "?p=1" in
  match httpGet Do m url with
  | (reqs, Err err) => (m, d, reqs, Err err)
  | (reqs, Ok bodyBytes) =>
      match UnmarshalMessages bodyBytes with
      | Err _ => (m, d, reqs, Err "解析响应失败")
      | Ok apiResp =>
          if negb (mCode apiResp =? 0)
          then (m, d, reqs, Err ("API 返回错误: " +:+ mMsg apiResp))
          else
            let '(newNotifications, newMessageIDs) :=
              foldl (messageStep m notificationType) ([], []) (Data apiResp) in
            if (0 <? length newMessageIDs)%nat
            then
              let m := withSeenMessages m
                         (foldl (λ seen id, <[id := true]> seen)
                                (seenMessages m) newMessageIDs) in
              (m, saveSeenMessages m d, reqs, Ok newNotifications)
            else (m, d, reqs, Ok newNotifications)
      end
  end.

(** One of the four blocks [if count > 0 { fetchNotificationsByType(..) }]:
    an error of the category is logged and the category is skipped. *)
Definition fetchCategory (Do : HttpClient) (count : Z) (notificationType : string)
    (acc : Ld246Monitor * Disk * list Request * list Notification)
    : Ld246Monitor * Disk * list Request * list Notification :=
  let '(m, d, reqs, notifications) := acc in
  if count >? 0
  then
    match fetchNotificationsByType Do m d notificationType with
    | (m, d, reqs', Ok found) => (m, d, reqs ++ reqs', notifications ++ found)
    | (m, d, reqs', Err _) => (m, d, reqs ++ reqs', notifications)
    end
  else acc.

(** The synthetic notification of the chat category. *)
Definition chatNotification (currentCount now : Z) : Notification :=
  mkNotification ("ld246_chat_" +:+ pretty currentCount)
                 ("聊天消息 (" +:+ pretty currentCount +:+ ")")
                 ("您有 " +:+ pretty currentCount +:+ " 条未读聊天消息")
                 "https://ld246.com/chats" "ld246" now.

(** [FetchUnreadMessages]; [now] is [time.Now().UnixMilli()]. *)
Definition FetchUnreadMessages (Do : HttpClient) (now : Z)
    (m : Ld246Monitor) (d : Disk)
    : Ld246Monitor * Disk * list Request * Result (list Notification) :=
  let countURL := baseURL m +:+ "/api/v2/notifications/unread/count" in
  match httpGet Do m countURL with
  | (reqs, Err err) => (m, d, reqs, Err err)
  | (reqs, Ok bodyBytes) =>
      match UnmarshalCount bodyBytes with
      | Err _ => (m, d, reqs, Err "解析响应失败")
      | Ok countResp =>
          if negb (cCode countResp =? 0)
          then (m, d, reqs, Err ("API 返回错误: " +:+ cMsg countResp))
          else if UnreadNotificationCnt countResp =? 0
          then (m, d, reqs, Ok [])
          else
            let acc := (m, d, reqs, []) in
            let acc := fetchCategory Do
              (UnreadCommentedNotificationCnt countResp) "commented" acc in
            let acc := fetchCategory Do
              (UnreadAtNotificationCnt countResp) "at" acc in
            let acc := fetchCategory Do
              (UnreadReplyNotificationCnt countResp) "reply" acc in
            let acc := fetchCategory Do
              (UnreadFollowingNotificationCnt countResp) "following" acc in
            let '(m, d, reqs, notifications) := acc in
            let currentCount := UnreadChatNotificationCnt countResp in
            if currentCount >? 0
            then (m, d, reqs,
                  Ok (notifications ++ [chatNotification currentCount now]))
            else (m, d, reqs, Ok notifications)
      end
  end.
End Monitor.

End Ld246.

(** * internal/scheduler/scheduler.go *)

Module Scheduler.

Record Scheduler := mkScheduler {
  ld246Monitor : Ld246.Ld246Monitor;
  githubMonitor : GitHub.GitHubMonitor;
  notifier : Notifier.WindowsNotifier;
  recentNotifications : list Notification
}.

Definition withRecent (s : Scheduler) (recent : list Notification) : Scheduler :=
  mkScheduler (ld246Monitor s) (githubMonitor s) (notifier s) recent.

Definition withNotifier (s : Scheduler) (n : Notifier.WindowsNotifier) : Scheduler :=
  mkScheduler (ld246Monitor s) (githubMonitor s) n (recentNotifications s).

Definition withLd246 (s : Scheduler) (m : Ld246.Ld246Monitor) : Scheduler :=
  mkScheduler m (githubMonitor s) (notifier s) (recentNotifications s).


(** [existingIDs]: the loop [for _, notif := range l { m[notif.ID] = true }]. *)
Definition idSet (l : list Notification) : gmap string bool :=
  foldl (λ m notif, <[ID notif := true]> m) ∅ l.

(** The three accumulators of the loop over the batch. *)
Record splitState := mkSplit {
  seenIDs : gmap string bool;
  existingNotifications : list Notification;
  newNotifications : list Notification
}.

(** One iteration of [for _, notif := range notifications]. *)
Definition splitStep (existingIDs : gmap string bool)
    (st : splitState) (notif : Notification) : splitState :=
  if mapGet (seenIDs st) (ID notif) then st
  else
    let seen := <[ID notif := true]> (seenIDs st) in
    if mapGet existingIDs (ID notif)
    then mkSplit seen (existingNotifications st ++ [notif]) (newNotifications st)
    else mkSplit seen (existingNotifications st) (newNotifications st ++ [notif]).

Definition splitBatch (existingIDs : gmap string bool)
    (notifications : list Notification) : splitState :=
  foldl (splitStep existingIDs) (mkSplit ∅ [] []) notifications.

(** The filtering loop that removes the notifications to be moved. *)
Definition removeMoved (existingIDsToRemove : gmap string bool)
    (recent : list Notification) : list Notification :=
  foldl (λ filtered notif,
           if negb (mapGet existingIDsToRemove (ID notif))
           then filtered ++ [notif] else filtered) [] recent.

(** The section of [addNotifications] that runs under the lock, from a
    non-empty batch: [None] when there is nothing to add or to move, and
    otherwise the new value of [s.recentNotifications]. *)
Definition updateRecent (recent notifications : list Notification)
    : option (list Notification) :=
  let existingIDs := idSet recent in
  let st := splitBatch existingIDs notifications in
  if (length (newNotifications st) =? 0)%nat
     && (length (existingNotifications st) =? 0)%nat
  then None
  else
    let recent :=
      if (0 <? length (existingNotifications st))%nat
      then removeMoved (idSet (existingNotifications st)) recent
      else recent in
    let notificationsToAdd := existingNotifications st ++ newNotifications st in
    let recent := notificationsToAdd ++ recent in
    Some (if (50 <? length recent)%nat then take 50 recent else recent).

(** [json.MarshalIndent] and [json.Unmarshal] at [[]*types.Notification]. *)
Class Lib := {
  MarshalIndent : list Notification → Result string;
  Unmarshal : string → Result (list Notification)
}.

Definition getNotificationsFilePath (d : Disk) : Disk * Path :=
  let dataDir := filepath.Join [] ["data"] in
  if os.Stat d dataDir then (d, filepath.Join dataDir ["notifications.json"])
  else
    match UserHomeDir d with
    | Ok homeDir =>
        let dataDir := filepath.Join homeDir [".notifyme"; "data"] in
        ((os.MkdirAll d dataDir).1, filepath.Join dataDir ["notifications.json"])
    | Err _ => (d, filepath.Join dataDir ["notifications.json"])
    end.

Section Store.
Context {SL : Lib}.

Definition saveNotificationsWithData (d : Disk) (notifications : list Notification)
    : Disk * option string :=
  let '(d, filePath) := getNotificationsFilePath d in
  let dataDir := filepath.Dir filePath in
  match os.MkdirAll d dataDir with
  | (d, Some _) => (d, Some "创建目录失败")
  | (d, None) =>
      match MarshalIndent notifications with
      | Err _ => (d, Some "序列化通知列表失败")
      | Ok data =>
          match os.WriteFile d filePath data with
          | (d, Some _) => (d, Some "写入文件失败")
          | (d, None) => (d, None)
          end
      end
  end.

(** [saveNotifications]: the current list is copied under the read lock
    and saved. *)
Definition saveNotifications (s : Scheduler) (d : Disk) : Disk * option string :=
  let notifications := recentNotifications s in
  saveNotificationsWithData d notifications.

Definition loadNotifications (s : Scheduler) (d : Disk)
    : Scheduler * Disk * option string :=
  let '(d, filePath) := getNotificationsFilePath d in
  if negb (os.Stat d filePath) then (s, d, None)
  else
    match os.ReadFile d filePath with
    | Err _ => (s, d, Some "读取文件失败")
    | Ok data =>
        match Unmarshal data with
        | Err _ => (s, d, Some "解析通知列表失败")
        | Ok notifications =>
            let notifications :=
              if (50 <? length notifications)%nat then take 50 notifications
              else notifications in
            (withRecent s notifications, d, None)
        end
    end.

(** [addNotifications]: the list is updated under the lock and a copy of
    it is saved afterwards; a failure to save is logged only. *)
Definition addNotifications (s : Scheduler) (d : Disk)
    (notifications : list Notification) : Scheduler * Disk :=
  if (length notifications =? 0)%nat then (s, d)
  else
    match updateRecent (recentNotifications s) notifications with
    | None => (s, d)
    | Some recent =>
        let s := withRecent s recent in
        let notificationsToSave := recentNotifications s in
        (s, (saveNotificationsWithData d notificationsToSave).1)
    end.

Definition GetRecentNotifications (s : Scheduler) : list Notification :=
  recentNotifications s.

(** The store after a sequence of [addNotifications] calls. *)
Definition addAll (s : Scheduler) (d : Disk)
    (batches : list (list Notification)) : Scheduler * Disk :=
  foldl (λ sd batch, addNotifications sd.1 sd.2 batch) (s, d) batches.
End Store.

Section Polling.
Context {STR : StringsLib} {UL : UrlLib} {GL : GitHub.Lib} {LL : Ld246.Lib}
        {SL : Lib}.
Variable Push : nat → Notifier.Toast → option string.
Variable Abs : string → Result string.

(** [NewScheduler]: [icon] is the icon path found by [initIcon]. *)
Definition NewScheduler (ld246Token githubToken icon : string) (d : Disk)
    : Scheduler * Disk :=
  let '(ld246, d) := Ld246.NewLd246Monitor ld246Token d in
  let s := mkScheduler ld246 (GitHub.NewGitHubMonitor githubToken)
                       (Notifier.NewWindowsNotifier icon) [] in
  let '(s, d, _) := loadNotifications s d in
  (s, d).

(** The block [if len(batch) > 0 { s.notifier.NotifyBatch(batch);
    s.addNotifications(batch) }] of the three checks. *)
Definition deliverAndAdd (s : Scheduler) (d : Disk)
    (batch : list Notification) : Scheduler * Disk :=
  if (0 <? length batch)%nat
  then
    let n := (Notifier.NotifyBatch Push Abs (notifier s) batch).1 in
    addNotifications (withNotifier s n) d batch
  else (s, d).

(** The first half of [checkLd246]: the recent replies. *)
Definition checkLd246Replies (Do : HttpClient) (s : Scheduler) (d : Disk)
    : Scheduler * Disk :=
  match Ld246.FetchRecentReplies Do (ld246Monitor s) d with
  | (m, d, _, Err _) => (withLd246 s m, d)
  | (m, d, _, Ok replies) => deliverAndAdd (withLd246 s m) d replies
  end.

(** The second half of [checkLd246]: the unread messages. *)
Definition checkLd246Messages (Do : HttpClient) (now : Z) (s : Scheduler)
    (d : Disk) : Scheduler * Disk :=
  match Ld246.FetchUnreadMessages Do now (ld246Monitor s) d with
  | (m, d, _, Err _) => (withLd246 s m, d)
  | (m, d, _, Ok messages) => deliverAndAdd (withLd246 s m) d messages
  end.

Definition checkLd246 (Do : HttpClient) (now : Z) (s : Scheduler) (d : Disk)
    : Scheduler * Disk :=
  let '(s, d) := checkLd246Replies Do s d in
  checkLd246Messages Do now s d.


(** [UpdateConfig]: both monitors are created again from the tokens of the
    new configuration; the field [config], which only the polling loops
    read, is not part of the model. *)
Definition UpdateConfig (s : Scheduler) (d : Disk) (ld246Token githubToken : string)
    : Scheduler * Disk :=
  let '(ld246, d) := Ld246.NewLd246Monitor ld246Token d in
  (mkScheduler ld246 (GitHub.NewGitHubMonitor githubToken) (notifier s)
               (recentNotifications s), d).
End Polling.

End Scheduler.

(** * internal/logger/logger.go *)

Module Logger.

Definition ESC : ascii := Ascii.ascii_of_nat 27.

(** [removeANSICodes]: the two nested loops as one scan; [inEscape] holds
    while the inner loop is looking for the ['m'] that ends a sequence
    opened by [ESC '[']. *)
Fixpoint scanANSI (inEscape : bool) (data : string) : string :=
  match data with
  | EmptyString => EmptyString
  | String c rest =>
      if inEscape
      then if Ascii.eqb c "m"%char then scanANSI false rest
           else scanANSI true rest
      else
        match rest with
        | String c' rest' =>
            if Ascii.eqb c ESC && Ascii.eqb c' "["%char
            then scanANSI true rest'
            else String c (scanANSI false rest)
        | EmptyString => String c EmptyString
        end
  end.

Definition removeANSICodes (data : string) : string := scanANSI false data.

End Logger.

(** * internal/config/config.go and pkg/types/config.go *)

Module Config.

Record GitHubAuth := mkGitHubAuth { GitHubToken : string }.

Record Ld246Config := mkLd246Config { Ld246Token : string }.

Record Config := mkConfig {
  PollInterval : Z;
  LogLevel : string;
  GitHub : GitHubAuth;
  Ld246 : Ld246Config
}.

Definition DefaultPollInterval : Z := 60.
Definition DefaultLogLevel : string := "debug".
Definition ConfigFileName : string := "config.json".

Definition validLogLevels : gmap string bool :=
  {[ "debug" := true; "info" := true; "warn" := true; "error" := true ]}.

(** [validateConfig]: [None] is [nil]. *)
Definition validateConfig (config : Config) : option string :=
  if PollInterval config <? 10 then Some "轮询间隔不能小于 10 秒"
  else if negb (mapGet validLogLevels (LogLevel config))
  then Some ("无效的日志级别: " +:+ LogLevel config)
  else None.

Definition getConfigPath (d : Disk) : Disk * Path :=
  let configPath := filepath.Join [] [ConfigFileName] in
  if os.Stat d configPath then (d, configPath)
  else
    match UserHomeDir d with
    | Ok homeDir =>
        let configDir := filepath.Join homeDir [".notifyme"] in
        ((os.MkdirAll d configDir).1, filepath.Join configDir [ConfigFileName])
    | Err _ => (d, configPath)
    end.

(** The value given to [viper.Set] and [viper.SetDefault]. *)
Inductive value :=
| VInt (z : Z)
| VString (s : string).

(** The functions of [github.com/spf13/viper] that the package calls, on
    the state [Viper] of the library. *)
Class Lib (Viper : Type) := {
  viperSetConfigType : Viper → string → Viper;
  viperSetConfigFile : Viper → Path → Viper;
  viperSetDefault : Viper → string → value → Viper;
  viperSet : Viper → string → value → Viper;
  viperReadInConfig : Viper → Disk → Result Viper;
  viperUnmarshal : Viper → Config → Result Config;
  viperGetInt : Viper → string → Z;
  viperGetString : Viper → string → string;
  viperWriteConfigAs : Viper → Disk → Path → Disk * option string
}.

(** The package variable [globalConfig] ([None] is [nil]) and the state
    of viper. *)
Record State (Viper : Type) := mkState {
  globalConfig : option Config;
  viper : Viper
}.
Arguments mkState {Viper} globalConfig viper.
Arguments globalConfig {Viper} s.
Arguments viper {Viper} s.

Section Package.
Context {Viper : Type} {VL : Lib Viper}.

Definition setAll (v : Viper) (config : Config) : Viper :=
  let v := viperSet v "poll_interval" (VInt (PollInterval config)) in
  let v := viperSet v "log_level" (VString (LogLevel config)) in
  let v := viperSet v "github.token" (VString (GitHubToken (GitHub config))) in
  viperSet v "ld246.token" (VString (Ld246Token (Ld246 config))).

Definition createDefaultConfig (v : Viper) (d : Disk) (configPath : Path)
    : Viper * Disk * option string :=
  let configDir := filepath.Dir configPath in
  match os.MkdirAll d configDir with
  | (d, Some err) => (v, d, Some err)
  | (d, None) =>
      let defaultConfig :=
        mkConfig DefaultPollInterval DefaultLogLevel (mkGitHubAuth "")
                 (mkLd246Config "") in
      let v := setAll v defaultConfig in
      let '(d, err) := viperWriteConfigAs v d configPath in
      (v, d, err)
  end.

Definition Load (st : State Viper) (d : Disk)
    : State Viper * Disk * Result Config :=
  let '(d, configPath) := getConfigPath d in
  let v := viperSetConfigType (viper st) "json" in
  let v := viperSetConfigFile v configPath in
  let v := viperSetDefault v "poll_interval" (VInt DefaultPollInterval) in
  let v := viperSetDefault v "log_level" (VString DefaultLogLevel) in
  let v := viperSetDefault v "github.token" (VString "") in
  let v := viperSetDefault v "ld246.token" (VString "") in
  let '(v, d, created) :=
    if negb (os.Stat d configPath) then createDefaultConfig v d configPath
    else (v, d, None) in
  match created with
  | Some _ => (mkState (globalConfig st) v, d, Err "创建默认配置文件失败")
  | None =>
      match viperReadInConfig v d with
      | Err _ => (mkState (globalConfig st) v, d, Err "读取配置文件失败")
      | Ok v =>
          let config := mkConfig 0 "" (mkGitHubAuth "") (mkLd246Config "") in
          match viperUnmarshal v config with
          | Err _ => (mkState (globalConfig st) v, d, Err "解析配置文件失败")
          | Ok config =>
              let config :=
                mkConfig (viperGetInt v "poll_interval")
                         (viperGetString v "log_level")
                         (mkGitHubAuth (viperGetString v "github.token"))
                         (mkLd246Config (viperGetString v "ld246.token")) in
              match validateConfig config with
              | Some _ => (mkState (globalConfig st) v, d, Err "配置验证失败")
              | None => (mkState (Some config) v, d, Ok config)
              end
          end
      end
  end.

Definition Save (st : State Viper) (d : Disk) (config : Config)
    : State Viper * Disk * option string :=
  match validateConfig config with
  | Some _ => (st, d, Some "配置验证失败")
  | None =>
      let '(d, configPath) := getConfigPath d in
      let v := setAll (viper st) config in
      match viperWriteConfigAs v d configPath with
      | (d, Some _) => (mkState (globalConfig st) v, d, Some "保存配置文件失败")
      | (d, None) => (mkState (Some config) v, d, None)
      end
  end.

Definition Get (st : State Viper) : Config :=
  match globalConfig st with
  | None =>
      mkConfig DefaultPollInterval DefaultLogLevel (mkGitHubAuth "")
               (mkLd246Config "")
  | Some config => config
  end.
End Package.

End Config.

(** * app.go *)

Module App.

(** The application: its configuration and its scheduler.  The window, the
    tray and the logger are left out. *)
Record App := mkApp {
  config : Config.Config;
  scheduler : Scheduler.Scheduler
}.

Section Bindings.
Context {STR : StringsLib} {UL : UrlLib} {GL : GitHub.Lib} {LL : Ld246.Lib}
        {SL : Scheduler.Lib} {Viper : Type} {VL : Config.Lib Viper}.

(** [NewApp], up to the creation of the scheduler: the configuration is
    loaded, or replaced by a default one when loading fails. *)
Definition NewApp (st : Config.State Viper) (icon : string) (d : Disk)
    : App * Config.State Viper * Disk :=
  let '(st, d, loaded) := Config.Load st d in
  let cfg :=
    match loaded with
    | Ok cfg => cfg
    | Err _ =>
        Config.mkConfig 60 "debug" (Config.mkGitHubAuth "")
                        (Config.mkLd246Config "")
    end in
  let '(sched, d) :=
    Scheduler.NewScheduler (Config.Ld246Token (Config.Ld246 cfg))
                           (Config.GitHubToken (Config.GitHub cfg)) icon d in
  (mkApp cfg sched, st, d).

Definition GetConfig (a : App) : Config.Config := config a.

(** [SaveConfig]: the configuration is saved first; when that fails the
    application keeps its configuration and its scheduler. *)
Definition SaveConfig (a : App) (st : Config.State Viper) (d : Disk)
    (cfg : Config.Config) : App * Config.State Viper * Disk * option string :=
  match Config.Save st d cfg with
  | (st, d, Some err) => (a, st, d, Some err)
  | (st, d, None) =>
      let '(sched, d) :=
        Scheduler.UpdateConfig (scheduler a) d
          (Config.Ld246Token (Config.Ld246 cfg))
          (Config.GitHubToken (Config.GitHub cfg)) in
      (mkApp cfg sched, st, d, None)
  end.

Definition GetRecentNotifications (a : App) : list Notification :=
  Scheduler.GetRecentNotifications (scheduler a).
End Bindings.

End App.

(** * Notions used in the statements *)

(** The batch without the notifications whose identifier occurred earlier
    in it (or is in [seen]). *)
Fixpoint firstByID (seen : list string) (l : list Notification) : list Notification :=
  match l with
  | [] => []
  | n :: l =>
      if bool_decide (ID n ∈ seen) then firstByID seen l
      else n :: firstByID (ID n :: seen) l
  end.

(** The identifiers of a list of notifications, in order. *)
Definition ids (l : list Notification) : list string := ID <$> l.

(** The three parts of the list after a batch has been added to [recent]:
    the notifications of the batch whose identifier is in [recent], those
    whose identifier is not, and what is left of [recent]. *)
Definition moved (recent batch : list Notification) : list Notification :=
  filter (λ n, ID n ∈ ids recent) (firstByID [] batch).

Definition fresh (recent batch : list Notification) : list Notification :=
  filter (λ n, ID n ∉ ids recent) (firstByID [] batch).

Definition kept (recent batch : list Notification) : list Notification :=
  filter (λ n, ID n ∉ ids (moved recent batch)) recent.

(** The invariant of the list: at most 50 entries, distinct identifiers. *)
Definition storeInv (l : list Notification) : Prop :=
  (length l ≤ 50)%nat ∧ NoDup (ids l).

(** The placement rule read as: the batch, without its repetitions, is
    found at the front of the new list in the order of the batch. *)
Definition batchOrderAtFront (batch recent' : list Notification) : Prop :=
  take 50 (firstByID [] batch) `prefix_of` recent'.

(** The state recorded for an item of the listing. *)
Definition stateOf (it : Ld246.article) : Ld246.articleState :=
  Ld246.mkState (Ld246.timeValueOf it) (Ld246.ArticleCommentCount it).

(** The identifier of the notification of a new item and of an item with
    new replies. *)
Definition newID (it : Ld246.article) : string :=
  "ld246_article_" +:+ Ld246.OID it.

Definition updatedID (it : Ld246.article) : string :=
  "ld246_article_" +:+ Ld246.OID it +:+ "_" +:+ pretty (Ld246.timeValueOf it).

(** The third loop of [rewriteSeen], on its own. *)
Definition refreshUnchanged (updated seen : gmap string Ld246.articleState)
    (articles : list Ld246.article) : gmap string Ld246.articleState :=
  foldl (λ seen it,
           match updated !! Ld246.OID it with
           | Some _ => seen
           | None => <[Ld246.OID it := stateOf it]> seen
           end) seen articles.

(** The identifier of the synthetic chat notification for a count. *)
Definition chatID (c : Z) : string := "ld246_chat_" +:+ pretty c.

(** The remote answers the count request of [m] with [counts]. *)
Definition answersCount {UL : UrlLib} {LL : Ld246.Lib} (Do : HttpClient)
    (m : Ld246.Ld246Monitor) (counts : Ld246.countResp) : Prop :=
  ∃ reqs body,
    Ld246.httpGet Do m (Ld246.baseURL m +:+ "/api/v2/notifications/unread/count")
    = (reqs, Ok body)
    ∧ Ld246.UnmarshalCount body = Ok counts.

(** An answer that reports [c > 0] unread chat messages, a total that is
    not zero and nothing unread in the four categories fetched in detail. *)
Definition chatOnly (counts : Ld246.countResp) (c : Z) : Prop :=
  Ld246.cCode counts = 0
  ∧ Ld246.UnreadNotificationCnt counts ≠ 0
  ∧ Ld246.UnreadCommentedNotificationCnt counts ≤ 0
  ∧ Ld246.UnreadAtNotificationCnt counts ≤ 0
  ∧ Ld246.UnreadReplyNotificationCnt counts ≤ 0
  ∧ Ld246.UnreadFollowingNotificationCnt counts ≤ 0
  ∧ Ld246.UnreadChatNotificationCnt counts = c
  ∧ 0 < c.

(** The number of calls of the sink made for an identifier. *)
Definition callsFor (id : string) (n : Notifier.WindowsNotifier) : nat :=
  length (filter (λ call, call.1 = id) (Notifier.pushed n)).

(** A disk on which directories can be made and files written and read. *)
Definition healthy (d : Disk) : Prop :=
  mkdirFails d = false ∧ writeFails d = false ∧ readFails d = false.

(** A fetch operation that sends no request and returns an error. *)
Definition failsFast {M : Type}
    (r : M * list Request * Result (list Notification)) : Prop :=
  r.1.2 = [] ∧ isErr r.2 = true.

(** A byte occurs in a string. *)
Fixpoint hasByte (c : ascii) (s : string) : bool :=
  match s with
  | EmptyString => false
  | String c' rest => Ascii.eqb c' c || hasByte c rest
  end.

(** Every configuration held in [globalConfig] passes [validateConfig]. *)
Definition validGlobal {Viper : Type} (st : Config.State Viper) : Prop :=
  ∀ config, Config.globalConfig st = Some config →
            Config.validateConfig config = None.


(** The properties of the notification made for an item of GitHub. *)
Definition madeFor (n : Notification) (it : GitHub.item) : Prop :=
  ID n = "github_" +:+ GitHub.itemID it
  ∧ Title n = "[" +:+ GitHub.RepositoryFullName it +:+ "] " +:+ GitHub.SubjectTitle it
  ∧ Source n = "github"
  ∧ Time n = GitHub.Unix (GitHub.UpdatedAt it)
  ∧ (String.length (Content n) ≤ 103)%nat
  ∧ (GitHub.SubjectURL it = "" → Link n = GitHub.HTMLURL it).

(** The properties of the notification made for an item of the listing of
    recent replies. *)
Definition madeForArticle (m : Ld246.Ld246Monitor) (n : Notification)
    (it : Ld246.article) : Prop :=
  (ID n = newID it ∨ ID n = updatedID it)
  ∧ Source n = "ld246"
  ∧ Link n = Ld246.baseURL m +:+ "/article/" +:+ Ld246.OID it
  ∧ Time n = Ld246.timeValueOf it.

(** * Sample data

    A healthy empty disk, library functions and a freshly created scheduler,
    used to instantiate the statements below on concrete inputs. *)

Module Sample.

Definition disk : Disk := mkDisk ∅ ∅ (Ok ["home"]) false false false.

#[export] Instance stringsLib : StringsLib :=
  {| ReplaceAll s _ _ := s; TrimSpace s := s |}.

#[export] Instance urlLib : UrlLib :=
  {| validURL _ := true;
     QueryEncode q := match q with [] => "" | (k, v) :: _ => k +:+ "=" +:+ v end |}.

(** Three notifications, the last two under one identifier. *)
Definition nA : Notification := mkNotification "a" "A" "" "" "github" 1.
Definition nB : Notification := mkNotification "b" "B" "" "" "github" 2.
Definition nB' : Notification := mkNotification "b" "B again" "" "" "github" 3.

(** A codec for the notifications file that knows a few lists. *)
#[export] Instance schedulerLib : Scheduler.Lib :=
  {| Scheduler.MarshalIndent l :=
       if decide (l = []) then Ok "[]"
       else if decide (l = [nB'; nA]) then Ok "[b,a]"
       else Err "unsupported";
     Scheduler.Unmarshal data :=
       if String.eqb data "[]" then Ok []
       else if String.eqb data "[b,a]" then Ok [nB'; nA]
       else if String.eqb data "[b,b]" then Ok [nB; nB']
       else if String.eqb data "[a x 51]" then Ok (replicate 51 nA)
       else Err "syntax" |}.

(** A disk with the directory [./data] and a notifications file in it. *)
Definition notificationsPath : Path := ["data"; "notifications.json"].

Definition diskWith (data : string) : Disk :=
  mkDisk {[["data"]]} {[notificationsPath := data]} (Ok ["home"])
         false false false.

(** A sink that always succeeds, and one whose first call fails. *)
Definition reliableSink (k : nat) (t : Notifier.Toast) : option string := None.


Definition abs (p : string) : Result string := Ok p.

(** A remote that answers every request with [200] and the body ["{}"]. *)
Definition remote : HttpClient :=
  λ _, Ok (mkResponse StatusOK ∅ (Ok "{}")).

(** A remote that answers [200] with a [Last-Modified] header and a body
    that is not JSON. *)
Definition garbled : HttpClient :=
  λ _, Ok (mkResponse StatusOK
             {["Last-Modified" := "Mon, 01 Jan 2024 00:00:00 GMT"]}
             (Ok "<html>")).

(** Library functions that parse every date to the instant [1000] and
    decode the body ["{}"] only. *)
#[export] Instance githubLib : GitHub.Lib :=
  {| GitHub.FormatRFC3339 t := pretty t;
     GitHub.FormatHTTP t := pretty t;
     GitHub.ParseTime h := Ok 1000;
     GitHub.UnmarshalItems body :=
       if String.eqb body "{}" then Ok [] else Err "syntax";
     GitHub.UnmarshalRelease body := Ok (GitHub.mkRelease "" "") |}.

(** A remote that answers every request with [200] and a given body. *)
Definition serve (body : string) : HttpClient :=
  λ _, Ok (mkResponse StatusOK ∅ (Ok body)).

(** The item ["X"], created at 100, with a given update time and reply
    count. *)
Definition article (updateTime count : Z) : Ld246.article :=
  Ld246.mkArticle "X" "Title" "" 100 updateTime count.

(** A decoder that knows two listings of ["X"] and two answers with only
    chat messages unread. *)
#[export] Instance ld246Lib : Ld246.Lib :=
  {| Ld246.MarshalArticleStates m := Ok "{}";
     Ld246.UnmarshalArticleStates data := Ok ∅;
     Ld246.MarshalMessageIDs l := Ok "[]";
     Ld246.UnmarshalMessageIDs data := Ok [];
     Ld246.UnmarshalArticles body :=
       if String.eqb body "X:200:2"
       then Ok (Ld246.mkArticlesResp 0 [article 200 2] "")
       else if String.eqb body "X:200:3"
       then Ok (Ld246.mkArticlesResp 0 [article 200 3] "")
       else Ok (Ld246.mkArticlesResp 0 [] "");
     Ld246.UnmarshalCount body :=
       if String.eqb body "chat:5"
       then Ok (Ld246.mkCountResp 0 5 0 0 0 5 0 "")
       else if String.eqb body "chat:8"
       then Ok (Ld246.mkCountResp 0 8 0 0 0 8 0 "")
       else Ok (Ld246.mkCountResp 0 0 0 0 0 0 0 "");
     Ld246.UnmarshalMessages body := Ok (Ld246.mkMessagesResp 0 [] "") |}.

(** A monitor without token that has seen nothing. *)
Definition ld246 : Ld246.Ld246Monitor :=
  Ld246.mkMonitor "https://ld246.com" "" ∅ ∅
                  ["home"; ".notifyme"; "data"; "ld246_seen_articles.json"]
                  ["home"; ".notifyme"; "data"; "ld246_seen_messages.json"].

(** The monitor that has seen ["X"] at time 100 with one reply. *)
Definition ld246Seen : Ld246.Ld246Monitor :=
  Ld246.mkMonitor "https://ld246.com" "" {["X" := Ld246.mkState 100 1]} ∅
                  ["home"; ".notifyme"; "data"; "ld246_seen_articles.json"]
                  ["home"; ".notifyme"; "data"; "ld246_seen_messages.json"].

Definition scheduler : Scheduler.Scheduler :=
  Scheduler.mkScheduler ld246 (GitHub.NewGitHubMonitor "")
                        (Notifier.NewWindowsNotifier "") [].

End Sample.

(** * Further sample data

    A disk that refuses writes, remotes that fail or answer [304], and
    library functions that decode two GitHub items and two messages. *)

Module Cases.


Definition offline : HttpClient := λ _, Err "offline".

Definition notModified : HttpClient :=
  λ _, Ok (mkResponse StatusNotModified
             {["Last-Modified" := "Mon, 01 Jan 2024 00:00:00 GMT"]} (Ok "")).

(** An issue and a release of the repository [o/r]. *)
Definition issue : GitHub.item :=
  GitHub.mkItem "1" "o/r" "Bug" "Issue"
                "https://api.github.com/repos/o/r/issues/7" 62135596900 "".

Definition released : GitHub.item :=
  GitHub.mkItem "2" "o/r" "v1" "Release" "" 62135596900 "https://github.com/o/r".

#[export] Instance githubLib : GitHub.Lib :=
  {| GitHub.FormatRFC3339 t := pretty t;
     GitHub.FormatHTTP t := pretty t;
     GitHub.ParseTime h := Ok 1000;
     GitHub.UnmarshalItems body :=
       if String.eqb body "items" then Ok [issue; released] else Err "syntax";
     GitHub.UnmarshalRelease body := Ok (GitHub.mkRelease "" "") |}.

(** An unread and a read message. *)
Definition unreadMessage : Ld246.message :=
  Ld246.mkMessage "7" "hello" 3 "100" 5 false.

Definition readMessage : Ld246.message :=
  Ld246.mkMessage "8" "old" 3 "100" 4 true.

(** A codec that round-trips the state of [Sample.ld246Seen] and of
    [ld246Messages] below, and decodes every body to the listing of ["X"]
    and to the two messages. *)
#[export] Instance ld246Lib : Ld246.Lib :=
  {| Ld246.MarshalArticleStates m := Ok "states";
     Ld246.UnmarshalArticleStates data := Ok {["X" := Ld246.mkState 100 1]};
     Ld246.MarshalMessageIDs l := Ok "ids";
     Ld246.UnmarshalMessageIDs data := Ok ["at_1"];
     Ld246.UnmarshalArticles body :=
       Ok (Ld246.mkArticlesResp 0 [Sample.article 200 2] "");
     Ld246.UnmarshalCount body := Ok (Ld246.mkCountResp 0 0 0 0 0 0 0 "");
     Ld246.UnmarshalMessages body :=
       Ok (Ld246.mkMessagesResp 0 [unreadMessage; readMessage] "") |}.

(** A monitor that has seen the message ["1"] of the category ["at"]. *)
Definition ld246Messages : Ld246.Ld246Monitor :=
  Ld246.mkMonitor "https://ld246.com" "" ∅ {["at_1" := true]}
                  ["home"; ".notifyme"; "data"; "ld246_seen_articles.json"]
                  ["home"; ".notifyme"; "data"; "ld246_seen_messages.json"].

(** A viper that holds the values of the four keys and writes the log
    level to the file. *)
Definition viperSetKey (v : Config.Config) (key : string) (x : Config.value)
    : Config.Config :=
  match x with
  | Config.VInt z =>
      if String.eqb key "poll_interval"
      then Config.mkConfig z (Config.LogLevel v) (Config.GitHub v) (Config.Ld246 v)
      else v
  | Config.VString s =>
      if String.eqb key "log_level"
      then Config.mkConfig (Config.PollInterval v) s (Config.GitHub v) (Config.Ld246 v)
      else if String.eqb key "github.token"
      then Config.mkConfig (Config.PollInterval v) (Config.LogLevel v)
                           (Config.mkGitHubAuth s) (Config.Ld246 v)
      else if String.eqb key "ld246.token"
      then Config.mkConfig (Config.PollInterval v) (Config.LogLevel v)
                           (Config.GitHub v) (Config.mkLd246Config s)
      else v
  end.

#[export] Instance viperLib : Config.Lib Config.Config :=
  {| Config.viperSetConfigType v _ := v;
     Config.viperSetConfigFile v _ := v;
     Config.viperSetDefault v _ _ := v;
     Config.viperSet := viperSetKey;
     Config.viperReadInConfig v d := Ok v;
     Config.viperUnmarshal v config := Ok config;
     Config.viperGetInt v _ := Config.PollInterval v;
     Config.viperGetString v key :=
       if String.eqb key "log_level" then Config.LogLevel v
       else if String.eqb key "github.token"
       then Config.GitHubToken (Config.GitHub v)
       else Config.Ld246Token (Config.Ld246 v);
     Config.viperWriteConfigAs v d p := os.WriteFile d p (Config.LogLevel v) |}.

Definition config (interval : Z) (level : string) : Config.Config :=
  Config.mkConfig interval level (Config.mkGitHubAuth "tok")
                  (Config.mkLd246Config "").

Definition configState : Config.State Config.Config :=
  Config.mkState None (config 0 "").

Definition app : App.App := App.mkApp (config 60 "debug") Sample.scheduler.

End Cases.

(** * The helpers on concrete inputs *)

Example truncateString_long : truncateString "abcdef" 3 = "abc...".
Proof. reflexivity. Qed.

Example truncateString_short : truncateString "abc" 3 = "abc".
Proof. reflexivity. Qed.

Example stripTags_pair : stripTags 15 "<b>hi</b> there" = "hi there".
Proof. reflexivity. Qed.

(** A ['>'] before any ['<'] is kept, and of two ['<'] the last one opens
    the tag. *)
Example stripTags_stray : stripTags 7 "a>b<c>d" = "a>bd".
Proof. reflexivity. Qed.

Example stripTags_nested : stripTags 6 "a<<b>c" = "a<c".
Proof. reflexivity. Qed.

Example chatNotification_5 : ID (Ld246.chatNotification 5 0) = "ld246_chat_5".
Proof. reflexivity. Qed.

(** * Facts about maps used as sets *)

Lemma mapGet_empty k : mapGet ∅ k = false.
Proof. unfold mapGet. by rewrite lookup_empty. Qed.

Lemma mapGet_insert_true m k k' :
  mapGet (<[k := true]> m) k' = bool_decide (k = k') || mapGet m k'.
Proof.
  unfold mapGet. rewrite lookup_insert.
  case_decide as Hk; subst; simpl.
  - by rewrite bool_decide_eq_true_2.
  - by rewrite bool_decide_eq_false_2.
Qed.

Lemma mapGet_foldl_insert {A} (f : A → string) (l : list A) m k :
  mapGet (foldl (λ m x, <[f x := true]> m) m l) k = true
  ↔ mapGet m k = true ∨ k ∈ f <$> l.
Proof.
  revert m. induction l as [|x l IH]; intros m; simpl.
  - rewrite elem_of_nil. tauto.
  - rewrite IH, mapGet_insert_true, orb_true_iff, bool_decide_eq_true,
      elem_of_cons.
    split; intros Hk; destruct_or?; subst; auto.
Qed.

(** * The recent-notifications list *)

Section StoreFacts.
Import Scheduler.

Lemma mapGet_idSet l k : mapGet (idSet l) k = true ↔ k ∈ ids l.
Proof.
  unfold idSet, ids. rewrite (mapGet_foldl_insert ID), mapGet_empty.
  split; [intros [?|?]; done | auto].
Qed.

Lemma mapGet_idSet_false l k : mapGet (idSet l) k = false ↔ k ∉ ids l.
Proof. rewrite <- mapGet_idSet. destruct (mapGet _ _); split; congruence. Qed.

Lemma removeMoved_filter m recent :
  removeMoved m recent = filter (λ n, mapGet m (ID n) = false) recent.
Proof.
  unfold removeMoved.
  enough (Hgen : ∀ acc,
    foldl (λ filtered notif,
             if negb (mapGet m (ID notif)) then filtered ++ [notif] else filtered)
          acc recent
    = acc ++ filter (λ n, mapGet m (ID n) = false) recent) by apply (Hgen []).
  induction recent as [|n recent IH]; intros acc; simpl.
  - by rewrite app_nil_r.
  - rewrite IH, filter_cons. case_decide as E.
    + rewrite E; simpl. by rewrite <- app_assoc.
    + apply not_false_is_true in E. by rewrite E.
Qed.

(** The loop over the batch, from any state whose [seenIDs] holds the
    identifiers of [seen]. *)
Lemma foldl_splitStep existingIDs l : ∀ st seen,
  (∀ k, mapGet (seenIDs st) k = true ↔ k ∈ seen) →
  let st' := foldl (splitStep existingIDs) st l in
  existingNotifications st'
    = existingNotifications st
      ++ filter (λ n, mapGet existingIDs (ID n) = true) (firstByID seen l)
  ∧ newNotifications st'
    = newNotifications st
      ++ filter (λ n, mapGet existingIDs (ID n) = false) (firstByID seen l).
Proof.
  induction l as [|n l IH]; intros st seen Hseen; simpl.
  - by rewrite !app_nil_r.
  - unfold splitStep at 2 4.
    destruct (mapGet (seenIDs st) (ID n)) eqn:Es.
    + rewrite bool_decide_eq_true_2 by by apply Hseen. by apply IH.
    + rewrite bool_decide_eq_false_2
        by (rewrite <- Hseen; congruence).
      rewrite !filter_cons.
      destruct (mapGet existingIDs (ID n)) eqn:Ee.
      * edestruct (IH (mkSplit (<[ID n := true]> (seenIDs st))
                               (existingNotifications st ++ [n])
                               (newNotifications st)) (ID n :: seen))
          as [-> ->].
        { intros k; simpl.
          rewrite mapGet_insert_true, orb_true_iff, bool_decide_eq_true,
            elem_of_cons, Hseen.
          split; (intros [->|?]; [by left | by right]). }
        simpl. by rewrite <- app_assoc.
      * edestruct (IH (mkSplit (<[ID n := true]> (seenIDs st))
                               (existingNotifications st)
                               (newNotifications st ++ [n])) (ID n :: seen))
          as [-> ->].
        { intros k; simpl.
          rewrite mapGet_insert_true, orb_true_iff, bool_decide_eq_true,
            elem_of_cons, Hseen.
          split; (intros [->|?]; [by left | by right]). }
        simpl. by rewrite <- app_assoc.
Qed.

Lemma splitBatch_spec recent notifications :
  let st := splitBatch (idSet recent) notifications in
  existingNotifications st
    = filter (λ n, ID n ∈ ids recent) (firstByID [] notifications)
  ∧ newNotifications st
    = filter (λ n, ID n ∉ ids recent) (firstByID [] notifications).
Proof.
  unfold splitBatch.
  destruct (foldl_splitStep (idSet recent) notifications (mkSplit ∅ [] []) [])
    as [-> ->].
  { intros k; simpl. rewrite mapGet_empty, elem_of_nil. split; done. }
  simpl. split; apply list_filter_iff; intros n.
  - apply mapGet_idSet.
  - apply mapGet_idSet_false.
Qed.

Lemma filter_both_nil {A} (P : A → Prop) `{∀ x, Decision (P x)} (l : list A) :
  filter P l = [] → filter (λ x, ¬ P x) l = [] → l = [].
Proof.
  destruct l as [|x l]; [done|]. rewrite !filter_cons.
  destruct (decide (P x)); [done|]. by rewrite decide_True.
Qed.

Lemma firstByID_nil_inv l : firstByID [] l = [] → l = [].
Proof.
  destruct l as [|n l]; [done|]. done.
Qed.

Lemma truncate_take {A} n (l : list A) :
  (if (n <? length l)%nat then take n l else l) = take n l.
Proof.
  case_match eqn:E; [done|]. symmetry. apply take_ge. by apply Nat.ltb_ge.
Qed.

Lemma removeMoved_kept recent batch :
  (if (0 <? length (moved recent batch))%nat
   then removeMoved (idSet (moved recent batch)) recent else recent)
  = kept recent batch.
Proof.
  case_match eqn:E.
  - rewrite removeMoved_filter. apply list_filter_iff.
    intros n. apply mapGet_idSet_false.
  - apply Nat.ltb_ge in E. unfold kept.
    destruct (moved recent batch) as [|m ms]; [|simpl in E; lia].
    clear. induction recent as [|r recent IH]; [done|].
    rewrite filter_cons, decide_True by apply not_elem_of_nil. by f_equal.
Qed.

(** What the locked section computes from a non-empty batch. *)
Lemma updateRecent_spec recent batch :
  batch ≠ [] →
  updateRecent recent batch
  = Some (take 50 (moved recent batch ++ fresh recent batch ++ kept recent batch)).
Proof.
  intros Hne. unfold updateRecent.
  destruct (splitBatch_spec recent batch) as [He Hn]. simpl in He, Hn.
  rewrite He, Hn. fold (moved recent batch) (fresh recent batch).
  rewrite removeMoved_kept, truncate_take, <- app_assoc.
  case_match eqn:E; [|done].
  apply andb_prop in E as [E1 E2].
  apply Nat.eqb_eq, nil_length_inv in E1, E2.
  exfalso. apply Hne, firstByID_nil_inv.
  by apply (filter_both_nil (λ n, ID n ∈ ids recent)).
Qed.

Lemma filter_none {A} (P : A → Prop) `{∀ x, Decision (P x)} (l : list A) :
  (∀ x, x ∈ l → ¬ P x) → filter P l = [].
Proof.
  induction l as [|x l IH]; intros Hall; [done|].
  rewrite filter_cons, decide_False by (apply Hall; by left).
  apply IH. intros y Hy. apply Hall. by right.
Qed.

Lemma filter_all {A} (P : A → Prop) `{∀ x, Decision (P x)} (l : list A) :
  (∀ x, x ∈ l → P x) → filter P l = l.
Proof.
  induction l as [|x l IH]; intros Hall; [done|].
  rewrite filter_cons, decide_True by (apply Hall; by left).
  f_equal. apply IH. intros y Hy. apply Hall. by right.
Qed.

(** A batch of one notification: it is put in front, after the entries
    under its identifier, if any, have been removed. *)
Lemma updateRecent_fresh_singleton recent n :
  ID n ∉ ids recent → updateRecent recent [n] = Some (take 50 (n :: recent)).
Proof.
  intros Hout. rewrite updateRecent_spec by done. f_equal.
  unfold kept, moved, fresh. simpl.
  rewrite !filter_cons, decide_False, decide_True by done. simpl.
  rewrite filter_all; [done|]. intros x _. apply not_elem_of_nil.
Qed.

Lemma updateRecent_moved_singleton recent n :
  ID n ∈ ids recent →
  updateRecent recent [n]
  = Some (take 50 (n :: filter (λ x, ID x ≠ ID n) recent)).
Proof.
  intros Hin. rewrite updateRecent_spec by done. f_equal.
  unfold kept, moved, fresh. simpl.
  rewrite !filter_cons, decide_True, decide_False by auto. simpl.
  do 2 f_equal. apply list_filter_iff. intros x.
  rewrite list_elem_of_singleton. done.
Qed.

(** The batch without its repetitions has distinct identifiers, none of
    them in [seen]. *)
Lemma firstByID_NoDup l : ∀ seen,
  NoDup (ids (firstByID seen l)) ∧ ∀ k, k ∈ ids (firstByID seen l) → k ∉ seen.
Proof.
  induction l as [|n l IH]; intros seen; simpl.
  - split; [constructor | intros k Hk; by apply elem_of_nil in Hk].
  - case_bool_decide as E; [apply IH|].
    destruct (IH (ID n :: seen)) as [Hnd Hout]. split.
    + simpl. constructor; [|done].
      intros Hin. apply Hout in Hin. apply Hin. by left.
    + intros k [->|Hk]%elem_of_cons; [done|].
      apply Hout in Hk. intros Hs. apply Hk. by right.
Qed.

Lemma NoDup_ids_partition (P : Notification → Prop) `{∀ n, Decision (P n)} l :
  NoDup (ids l) → NoDup (ids (filter P l ++ filter (λ n, ¬ P n) l)).
Proof.
  intros Hnd. unfold ids. rewrite fmap_app. apply NoDup_app. repeat split.
  - eapply sublist_NoDup; [exact Hnd|]. apply fmap_sublist, sublist_filter.
  - intros k (n & -> & Hn)%list_elem_of_fmap (n' & Heq & Hn')%list_elem_of_fmap.
    apply list_elem_of_filter in Hn as [HP Hn], Hn' as [HnP Hn'].
    assert (n = n'); [|by subst].
    clear HP HnP. induction l as [|x l IH]; [by apply elem_of_nil in Hn|].
    apply NoDup_cons in Hnd as [Hx Hnd]. fold (ids l) in *.
    apply elem_of_cons in Hn as [->|Hn], Hn' as [->|Hn']; auto.
    + exfalso. apply Hx. rewrite Heq. by apply list_elem_of_fmap_2.
    + exfalso. apply Hx. rewrite <- Heq. by apply list_elem_of_fmap_2.
  - eapply sublist_NoDup; [exact Hnd|]. apply fmap_sublist, sublist_filter.
Qed.

(** The list before truncation has distinct identifiers when [recent]
    has. *)
Lemma merged_NoDup recent batch :
  NoDup (ids recent) →
  NoDup (ids (moved recent batch ++ fresh recent batch ++ kept recent batch)).
Proof.
  intros Hnd. rewrite app_assoc. unfold ids at 1. rewrite fmap_app.
  apply NoDup_app. repeat split.
  - apply (NoDup_ids_partition (λ n, ID n ∈ ids recent)), firstByID_NoDup.
  - intros k Hk (n & -> & Hn)%list_elem_of_fmap.
    apply list_elem_of_filter in Hn as [Hout Hn].
    rewrite fmap_app in Hk. apply elem_of_app in Hk as [Hk|Hk]; [done|].
    apply list_elem_of_fmap in Hk as (n' & Heq & Hn').
    apply list_elem_of_filter in Hn' as [Hfresh _].
    apply Hfresh. rewrite <- Heq. by apply list_elem_of_fmap_2.
  - eapply sublist_NoDup; [exact Hnd|]. apply fmap_sublist, sublist_filter.
Qed.

(** The two properties of the list are kept by the locked section. *)
Lemma updateRecent_invariant recent batch recent' :
  updateRecent recent batch = Some recent' →
  (length recent' ≤ 50)%nat ∧ (NoDup (ids recent) → NoDup (ids recent')).
Proof.
  unfold updateRecent. case_match; [done|]. intros [= <-].
  rewrite truncate_take. split; [apply firstn_le_length|].
  intros Hnd. destruct (splitBatch_spec recent batch) as [He Hn].
  simpl in He, Hn. rewrite He, Hn.
  fold (moved recent batch) (fresh recent batch).
  rewrite removeMoved_kept, <- app_assoc.
  eapply sublist_NoDup; [by apply merged_NoDup|].
  apply fmap_sublist, sublist_take.
Qed.
End StoreFacts.

Section StoreTheorems.
Import Scheduler.
Context {SL : Lib}.

Lemma addNotifications_recent s d batch :
  recentNotifications (addNotifications s d batch).1
  = match batch with
    | [] => recentNotifications s
    | _ => default (recentNotifications s)
                   (updateRecent (recentNotifications s) batch)
    end.
Proof.
  unfold addNotifications. destruct batch as [|n batch]; [done|].
  simpl length. simpl Nat.eqb. cbv iota.
  by destruct (updateRecent _ _).
Qed.

Lemma addNotifications_storeInv s d batch :
  storeInv (recentNotifications s) →
  storeInv (recentNotifications (addNotifications s d batch).1).
Proof.
  intros [Hlen Hnd]. rewrite addNotifications_recent.
  destruct batch as [|n batch]; [done|].
  destruct (updateRecent _ _) as [recent'|] eqn:E; [|done].
  apply updateRecent_invariant in E as [? ?]. split; auto.
Qed.

Lemma addAll_storeInv batches : ∀ s d,
  storeInv (recentNotifications s) →
  storeInv (recentNotifications (addAll s d batches).1).
Proof.
  unfold addAll. induction batches as [|b batches IH]; intros s d Hinv; [done|].
  simpl. destruct (addNotifications s d b) as [s1 d1] eqn:E.
  apply IH. change s1 with (s1, d1).1. rewrite <- E.
  by apply addNotifications_storeInv.
Qed.

Lemma firstByID_sublist l : ∀ seen, firstByID seen l `sublist_of` l.
Proof.
  induction l as [|n l IH]; intros seen; simpl; [done|].
  case_bool_decide; [apply sublist_cons | apply sublist_skip]; apply IH.
Qed.

Lemma firstByID_ids l : ∀ seen k,
  k ∈ ids l → k ∉ seen → k ∈ ids (firstByID seen l).
Proof.
  induction l as [|n l IH]; intros seen k Hk Hout; simpl in *; [done|].
  apply elem_of_cons in Hk as [->|Hk].
  - rewrite bool_decide_eq_false_2 by done. by left.
  - case_bool_decide as E; [by apply IH|].
    destruct (decide (k = ID n)) as [->|Hne]; [by left|].
    right. apply IH; [done|]. by intros [?|?]%elem_of_cons.
Qed.

(** A notification of the batch whose identifier is in the list is among
    the moved ones, under that identifier. *)
Lemma moved_ids recent batch n :
  n ∈ batch → ID n ∈ ids recent → ID n ∈ ids (moved recent batch).
Proof.
  intros Hn Hin.
  assert (Hf : ID n ∈ ids (firstByID [] batch)).
  { apply firstByID_ids; [by apply list_elem_of_fmap_2 | apply not_elem_of_nil]. }
  apply list_elem_of_fmap in Hf as (n' & Heq & Hn').
  rewrite Heq. apply list_elem_of_fmap_2, list_elem_of_filter.
  split; [by rewrite <- Heq | done].
Qed.

Lemma length_filter_lt {A} (P : A → Prop) `{∀ x, Decision (P x)} (l : list A) x :
  x ∈ l → ¬ P x → (length (filter P l) < length l)%nat.
Proof.
  induction l as [|y l IH]; intros Hx HnP; [by apply elem_of_nil in Hx|].
  rewrite filter_cons. pose proof (length_filter P l) as Hle.
  apply elem_of_cons in Hx as [<-|Hx].
  - rewrite decide_False by done. simpl. lia.
  - specialize (IH Hx HnP). case_decide; simpl; lia.
Qed.

(** C1.  Whatever the sequence of batches given to [addNotifications],
    starting from the empty list, after each call (that is, after the
    first [k] calls, for every [k]) the list has at most 50 entries and no
    two of them have the same identifier. *)
Theorem C1_add_capacity_nodup (s : Scheduler) (d : Disk)
    (batches : list (list Notification)) (k : nat) :
  let s' := (addAll (withRecent s []) d (take k batches)).1 in
  (length (GetRecentNotifications s') ≤ 50)%nat
  ∧ NoDup (ids (GetRecentNotifications s')).
Proof.
  apply (addAll_storeInv (take k batches) (withRecent s []) d).
  split; simpl; [lia | constructor].
Qed.

Lemma merged_parts recent batch :
  moved recent batch `sublist_of` batch
  ∧ fresh recent batch `sublist_of` batch
  ∧ kept recent batch `sublist_of` recent
  ∧ (∀ n, n ∈ batch → ID n ∈ ids recent → ID n ∉ ids (kept recent batch)).
Proof.
  split; [|split; [|split]].
  - etrans; [apply sublist_filter | apply firstByID_sublist].
  - etrans; [apply sublist_filter | apply firstByID_sublist].
  - apply sublist_filter.
  - intros n Hn Hin (n' & Heq & Hn')%list_elem_of_fmap.
    apply list_elem_of_filter in Hn' as [Hout _].
    apply Hout. rewrite <- Heq. by apply moved_ids.
Qed.

Lemma merged_singleton recent n :
  ID n ∈ ids recent →
  ∃ rest,
    take 50 (moved recent [n] ++ fresh recent [n] ++ kept recent [n]) = n :: rest
    ∧ rest `sublist_of` recent
    ∧ (length (n :: rest) ≤ length recent)%nat.
Proof.
  intros Hin.
  assert (Hm : moved recent [n] = [n]).
  { unfold moved. simpl. rewrite filter_cons, decide_True by done. done. }
  assert (Hf : fresh recent [n] = []).
  { unfold fresh. simpl. rewrite filter_cons, decide_False by auto. done. }
  rewrite Hm, Hf. simpl.
  exists (take 49 (kept recent [n])). split; [done|]. split.
  - etrans; [apply sublist_take | apply sublist_filter].
  - apply list_elem_of_fmap in Hin as (r & Heq & Hr).
    assert (Hlt : (length (kept recent [n]) < length recent)%nat).
    { apply (length_filter_lt _ _ r); [done|].
      rewrite Hm. simpl. intros Hout. apply Hout. rewrite Heq. by left. }
    rewrite length_take. lia.
Qed.

(** C2 (amended).  A call of [addNotifications] with a non-empty batch
    leaves, truncated to 50 entries: first the notifications of the batch
    whose identifier was in the list (moved), in the order of the batch,
    then those whose identifier was not (new), in the order of the batch,
    then the former list without the moved identifiers, in its former
    order.  Every identifier of the batch that was in the list is removed
    from its former position, and re-adding one present identifier puts it
    in front without making the list longer. *)
Theorem C2_add_moved_then_new (s : Scheduler) (d : Disk)
    (batch : list Notification) (Hne : batch ≠ []) :
  let recent := GetRecentNotifications s in
  let recent' := GetRecentNotifications (addNotifications s d batch).1 in
  recent' = take 50 (moved recent batch ++ fresh recent batch ++ kept recent batch)
  ∧ moved recent batch `sublist_of` batch
  ∧ fresh recent batch `sublist_of` batch
  ∧ kept recent batch `sublist_of` recent
  ∧ (∀ n, n ∈ batch → ID n ∈ ids recent → ID n ∉ ids (kept recent batch))
  ∧ (∀ n, batch = [n] → ID n ∈ ids recent →
       ∃ rest, recent' = n :: rest ∧ rest `sublist_of` recent
               ∧ (length recent' ≤ length recent)%nat).
Proof.
  unfold GetRecentNotifications. cbv zeta.
  generalize (addNotifications_recent s d batch).
  generalize (recentNotifications (addNotifications s d batch).1).
  generalize (recentNotifications s). intros recent recent' ->.
  destruct batch as [|n0 batch0] eqn:Eb; [done|]. rewrite <- Eb in *.
  rewrite updateRecent_spec by done. simpl default.
  destruct (merged_parts recent batch) as (Hm & Hf & Hk & Hrm).
  repeat (split; [done|]).
  intros n -> Hin. destruct (merged_singleton recent n Hin) as (rest & Hr & ? & ?).
  exists rest. by rewrite Hr.
Qed.
End StoreTheorems.

(** C2 as stated fails: with ["b"] in the list, the batch [["a"; "b"]]
    (a new notification before a present one) leaves ["b"] before ["a"],
    not the batch in its own order. *)
Lemma C2_counterexample :
  ¬ batchOrderAtFront [Sample.nA; Sample.nB']
      (Scheduler.GetRecentNotifications
         (Scheduler.addNotifications (SL := Sample.schedulerLib)
            (Scheduler.withRecent Sample.scheduler [Sample.nB]) Sample.disk
            [Sample.nA; Sample.nB']).1).
Proof.
  unfold batchOrderAtFront. intros [k Hk]. vm_compute in Hk. discriminate Hk.
Qed.

Lemma C2_witness :
  [Sample.nB'] ≠ []
  ∧ Scheduler.GetRecentNotifications
      (Scheduler.addNotifications (SL := Sample.schedulerLib)
         (Scheduler.withRecent Sample.scheduler [Sample.nA; Sample.nB])
         Sample.disk [Sample.nB']).1
    = [Sample.nB'; Sample.nA].
Proof.
  split; [done|].
  destruct (C2_add_moved_then_new (SL := Sample.schedulerLib)
              (Scheduler.withRecent Sample.scheduler [Sample.nA; Sample.nB])
              Sample.disk [Sample.nB']) as [Heq _]; [done|].
  rewrite Heq. reflexivity.
Defined.

(** * The delivery guard *)

Section GuardFacts.
Import Notifier.
Variable Push : nat → Toast → option string.
Variable Abs : string → Result string.

Lemma Notify_notified n x :
  IsNotified n (ID x) = true → Notify Push Abs n x = (n, None).
Proof. unfold IsNotified, Notify. by intros ->. Qed.

Lemma Notify_success n x :
  IsNotified n (ID x) = false →
  Push (length (pushed n)) (buildToast Abs n x) = None →
  Notify Push Abs n x
  = (mkNotifier (<[ID x := true]> (notifiedIDs n)) (iconPath n)
                (pushed n ++ [(ID x, buildToast Abs n x)]), None).
Proof. unfold IsNotified, Notify. by intros -> ->. Qed.


Lemma buildToast_icon n n' x :
  iconPath n = iconPath n' → buildToast Abs n x = buildToast Abs n' x.
Proof. unfold buildToast. by intros ->. Qed.

(** The three outcomes of one delivery. *)
Lemma Notify_cases n x :
  let n' := (Notify Push Abs n x).1 in
  iconPath n' = iconPath n
  ∧ ((IsNotified n (ID x) = true ∧ n' = n)
     ∨ (IsNotified n (ID x) = false
        ∧ pushed n' = pushed n ++ [(ID x, buildToast Abs n x)]
        ∧ (notifiedIDs n' = notifiedIDs n
           ∨ notifiedIDs n' = <[ID x := true]> (notifiedIDs n)))).
Proof.
  unfold IsNotified, Notify. destruct (mapGet _ _) eqn:E; simpl.
  - split; [done|]. by left.
  - destruct (Push _ _); simpl; (split; [done|]); right; auto.
Qed.

Lemma NotifyBatch_cons n x batch :
  (NotifyBatch Push Abs n (x :: batch)).1
  = (NotifyBatch Push Abs (Notify Push Abs n x).1 batch).1.
Proof. done. Qed.



(** An identifier that is marked stays marked, and no further call of the
    sink is made for it, whatever is delivered afterwards. *)
Lemma NotifyBatch_marked batch : ∀ n id,
  IsNotified n id = true →
  let n' := (NotifyBatch Push Abs n batch).1 in
  IsNotified n' id = true ∧ callsFor id n' = callsFor id n.
Proof.
  induction batch as [|y batch IH]; intros n id Hid; [done|].
  rewrite NotifyBatch_cons. cbv zeta.
  destruct (Notify_cases n y) as [_ Hc]. cbv zeta in Hc.
  set (n1 := (Notify Push Abs n y).1) in *.
  assert (H1 : IsNotified n1 id = true ∧ callsFor id n1 = callsFor id n).
  { destruct Hc as [[_ ->]|(Hy & Hp & Hm)]; [done|].
    assert (Hne : ID y ≠ id) by (intros <-; congruence).
    unfold callsFor, IsNotified in *. rewrite Hp, filter_app, filter_cons.
    simpl. rewrite decide_False by done. rewrite app_nil_r. split; [|done].
    destruct Hm as [-> | ->]; [done|].
    by rewrite mapGet_insert_true, Hid, orb_true_r. }
  destruct H1 as [Hid1 Hcalls1].
  destruct (IH n1 id Hid1) as [? Hcalls]. cbv zeta in Hcalls.
  split; [done|]. by rewrite Hcalls.
Qed.



End GuardFacts.


(** * The GitHub monitor *)

Section GitHubFacts.
Import GitHub.
Context {STR : StringsLib} {UL : UrlLib} {GL : Lib}.

Lemma updateLastModified_parsed m resp h t :
  HeaderGet resp "Last-Modified" = h → h ≠ "" → ParseTime h = Ok t →
  updateLastModified m resp = mkMonitor (baseURL m) (token m) t.
Proof.
  intros Hh Hne Hp. unfold updateLastModified. rewrite Hh, Hp.
  apply String.eqb_neq in Hne. by rewrite Hne.
Qed.

(** X29.  A [304] answer that carries a date: an empty batch after the one
    request, and the cursor is that date. *)
Lemma FetchNotificationsSince_not_modified Do m since req resp h t :
  token m ≠ "" → buildRequest m since = Ok req → Do req = Ok resp →
  StatusCode resp = StatusNotModified →
  HeaderGet resp "Last-Modified" = h → h ≠ "" → ParseTime h = Ok t →
  FetchNotificationsSince Do m since
  = (mkMonitor (baseURL m) (token m) t, [req], Ok []).
Proof.
  intros Htok Hreq Hdo Hst Hh Hne Hp. unfold FetchNotificationsSince.
  apply String.eqb_neq in Htok. rewrite Htok, Hreq, Hdo.
  unfold handleResponse. rewrite Hst. simpl.
  by rewrite (updateLastModified_parsed m resp h t).
Qed.

(** A [200] answer that carries a date and decodes: the cursor is that
    date. *)
Lemma FetchNotificationsSince_ok_cursor Do m since req resp h t body items :
  token m ≠ "" → buildRequest m since = Ok req → Do req = Ok resp →
  StatusCode resp = StatusOK →
  HeaderGet resp "Last-Modified" = h → h ≠ "" → ParseTime h = Ok t →
  Body resp = Ok body → UnmarshalItems body = Ok items →
  ∃ reqs result,
    FetchNotificationsSince Do m since
    = (mkMonitor (baseURL m) (token m) t, req :: reqs, Ok result).
Proof.
  intros Htok Hreq Hdo Hst Hh Hne Hp Hb Hu. unfold FetchNotificationsSince.
  apply String.eqb_neq in Htok. rewrite Htok, Hreq, Hdo.
  unfold handleResponse. rewrite Hst, Hb, Hu. simpl.
  rewrite (updateLastModified_parsed m resp h t) by done.
  destruct (foldl _ _ items) as [reqs result]. by exists reqs, result.
Qed.

(** X30.  Every error but the failure to decode the body leaves the
    monitor, and so the cursor, as it was. *)
Lemma FetchNotificationsSince_error_cursor Do m since m' reqs err :
  FetchNotificationsSince Do m since = (m', reqs, Err err) →
  err ≠ "解析响应失败" → m' = m.
Proof.
  unfold FetchNotificationsSince. case_match; [by intros [= <- _ _]|].
  destruct (buildRequest m since) as [req|e]; [|by intros [= <- _ _]].
  destruct (Do req) as [resp|e]; [|by intros [= <- _ _]].
  unfold handleResponse.
  destruct (StatusCode resp =? StatusNotModified); [done|].
  destruct (Body resp) as [body|e]; [|by intros [= <- _ _]].
  destruct (negb (StatusCode resp =? StatusOK)); [by intros [= <- _ _]|].
  destruct (UnmarshalItems body) as [items|e].
  - by destruct (foldl _ _ items).
  - intros [= _ _ <-]. done.
Qed.

(** C4 (the defect).  When the answer is [200] with a [Last-Modified] date
    and a body that does not decode, [FetchNotificationsSince] returns an
    error and has nevertheless moved the cursor to that date. *)
Theorem C4_decode_error_advances_cursor Do m since req resp h t body err :
  token m ≠ "" → buildRequest m since = Ok req → Do req = Ok resp →
  StatusCode resp = StatusOK →
  HeaderGet resp "Last-Modified" = h → h ≠ "" → ParseTime h = Ok t →
  Body resp = Ok body → UnmarshalItems body = Err err →
  FetchNotificationsSince Do m since
  = (mkMonitor (baseURL m) (token m) t, [req], Err "解析响应失败").
Proof.
  intros Htok Hreq Hdo Hst Hh Hne Hp Hb Hu. unfold FetchNotificationsSince.
  apply String.eqb_neq in Htok. rewrite Htok, Hreq, Hdo.
  unfold handleResponse. rewrite Hst, Hb, Hu. simpl.
  by rewrite (updateLastModified_parsed m resp h t).
Qed.

(** Without a token the GitHub monitor sends nothing. *)
Lemma FetchNotificationsSince_no_token Do m since :
  token m = "" →
  FetchNotificationsSince Do m since = (m, [], Err "GitHub token 未设置").
Proof. intros Htok. unfold FetchNotificationsSince. by rewrite Htok. Qed.
End GitHubFacts.

Lemma C4_witness :
  let m := GitHub.NewGitHubMonitor "tok" in
  GitHub.token m ≠ ""
  ∧ GitHub.lastModified m = 0
  ∧ ∃ req,
      GitHub.FetchNotificationsSince (UL := Sample.urlLib) (GL := Sample.githubLib)
        (STR := Sample.stringsLib) Sample.garbled m 0
      = (GitHub.mkMonitor "https://api.github.com" "tok" 1000, [req],
         Err "解析响应失败").
Proof.
  intros m. split; [done|]. split; [done|]. eexists.
  eapply (C4_decode_error_advances_cursor (UL := Sample.urlLib)
            (GL := Sample.githubLib) (STR := Sample.stringsLib)
            Sample.garbled m 0 _ _ "Mon, 01 Jan 2024 00:00:00 GMT" 1000
            "<html>" "syntax");
    [done | reflexivity | reflexivity | reflexivity | reflexivity | done
    | reflexivity | reflexivity | reflexivity].
Defined.

(** * The ld246 monitor: recent replies *)

Section RepliesFacts.
Import Ld246.
Context {STR : StringsLib} {UL : UrlLib} {LL : Lib}.

Lemma map_fold_insert_union (seen updated : gmap string articleState) :
  map_fold (λ id state seen, <[id := state]> seen) seen updated = updated ∪ seen.
Proof.
  apply (map_fold_weak_ind (λ r m, r = m ∪ seen)).
  - by rewrite (left_id_L ∅ (∪)).
  - intros i x m r _ ->. by rewrite insert_union_l.
Qed.

(** The entry of [id] after the third loop: untouched when [id] has an
    updated state, and otherwise the state of the last item listed under
    [id], if there is one. *)
Lemma refreshUnchanged_lookup updated articles id : ∀ seen,
  refreshUnchanged updated seen articles !! id
  = match updated !! id with
    | Some _ => seen !! id
    | None =>
        match last (filter (λ it, OID it = id) articles) with
        | Some it => Some (stateOf it)
        | None => seen !! id
        end
    end.
Proof.
  unfold refreshUnchanged.
  induction articles as [|it articles IH]; intros seen; simpl.
  - by destruct (updated !! id).
  - rewrite IH, filter_cons. clear IH.
    destruct (updated !! id) as [st|] eqn:Eu.
    + destruct (updated !! OID it) eqn:Ei; [done|].
      rewrite lookup_insert_ne; [done | congruence].
    + case_decide as Eid.
      * subst id. rewrite Eu, last_cons, lookup_insert_eq.
        by destruct (last _).
      * destruct (last _); [done|].
        destruct (updated !! OID it); [done|]. by rewrite lookup_insert_ne.
Qed.

Lemma last_filter_Some {A} (P : A → Prop) `{∀ x, Decision (P x)} (l : list A) x :
  last (filter P l) = Some x → x ∈ l ∧ P x.
Proof.
  intros Hl. assert (Hin : x ∈ filter P l).
  { rewrite last_lookup in Hl. by eapply list_elem_of_lookup_2. }
  apply list_elem_of_filter in Hin. tauto.
Qed.

Lemma last_filter_is_Some {A} (P : A → Prop) `{∀ x, Decision (P x)} (l : list A) x :
  x ∈ l → P x → is_Some (last (filter P l)).
Proof.
  intros Hx HP. assert (Hin : x ∈ filter P l) by by apply list_elem_of_filter.
  destruct (filter P l) as [|y k] eqn:E; [by apply elem_of_nil in Hin|].
  rewrite last_cons. destruct (last k); eauto.
Qed.

Lemma rewriteSeen_loops seen updated articles :
  rewriteSeen seen updated articles
  = filter (λ kv, mapGet (foldl (λ ids it, <[OID it := true]> ids) ∅ articles) kv.1
                  = true)
           (refreshUnchanged updated
              (map_fold (λ id state seen, <[id := state]> seen) seen updated)
              articles).
Proof. reflexivity. Qed.

(** The entries of [rewriteSeen]: only identifiers of the listing, all of
    them, and each with an updated state or the state of a listed item. *)
Lemma rewriteSeen_lookup seen updated articles id st :
  rewriteSeen seen updated articles !! id = Some st
  ↔ id ∈ OID <$> articles
    ∧ (updated !! id = Some st
       ∨ (updated !! id = None
          ∧ ∃ it, last (filter (λ it, OID it = id) articles) = Some it
                  ∧ st = stateOf it)).
Proof.
  rewrite rewriteSeen_loops, map_lookup_filter_Some. simpl.
  rewrite (mapGet_foldl_insert OID), mapGet_empty.
  rewrite refreshUnchanged_lookup, map_fold_insert_union.
  split.
  - intros [Hl [?|Hin]]; [done|]. split; [done|].
    destruct (updated !! id) as [st'|] eqn:Eu.
    + left. rewrite <- Hl. symmetry. by apply lookup_union_Some_l.
    + right. split; [done|].
      apply list_elem_of_fmap in Hin as (it & -> & Hit).
      destruct (last_filter_is_Some (λ it', OID it' = OID it) articles it Hit eq_refl)
        as [it' Hlast].
      rewrite Hlast in Hl. exists it'. split; [done|]. congruence.
  - intros [Hin [Hu|(Hu & it & Hlast & ->)]]; (split; [|by right]).
    + rewrite Hu. by apply lookup_union_Some_l.
    + by rewrite Hu, Hlast.
Qed.

(** The updated states gathered by the reconciliation loop are states of
    listed items. *)
Lemma reconcile_updated m articles : ∀ st id s,
  updatedArticles (foldl (reconcileStep m) st articles) !! id = Some s →
  updatedArticles st !! id = Some s
  ∨ ∃ it, it ∈ articles ∧ OID it = id ∧ s = stateOf it.
Proof.
  induction articles as [|it articles IH]; intros st id s; simpl; [by left|].
  intros Hs. apply IH in Hs as [Hs|(it' & Hin & ? & ?)].
  - unfold reconcileStep in Hs.
    destruct (negb _); [by left|]. simpl in Hs.
    destruct (decide (OID it = id)) as [<-|Hne].
    + rewrite lookup_insert_eq in Hs. right. exists it.
      split; [by left|]. split; [done|]. by injection Hs as <-.
    + rewrite lookup_insert_ne in Hs by done. by left.
  - right. exists it'. split; [by right | done].
Qed.

Lemma string_app_nil_r (s : string) : s +:+ "" = s.
Proof.
  induction s as [|c s IH]; [done|].
  change (String c (s +:+ "") = String c s). by f_equal.
Qed.

(** The identifier of an update differs from that of the item when it was
    new, and two updates at different times have different identifiers. *)
Lemma updatedID_newID it it' : OID it = OID it' → updatedID it ≠ newID it'.
Proof.
  unfold updatedID, newID. intros -> Heq.
  apply String.app_inj in Heq. rewrite <- (string_app_nil_r (OID it')) in Heq at 2.
  apply String.app_inj in Heq. discriminate Heq.
Qed.

Lemma updatedID_inj_time it it' :
  OID it = OID it' → updatedID it = updatedID it' → timeValueOf it = timeValueOf it'.
Proof.
  unfold updatedID. intros -> Heq. do 3 apply String.app_inj in Heq.
  by apply pretty_Z_inj in Heq.
Qed.

(** The reconciliation loop on an item that is new, has new replies, or is
    unchanged. *)
Lemma reconcileStep_new m st it :
  seenArticles m !! OID it = None →
  ∃ n, reconcileStep m st it
       = mkReconcile (newNotifications st ++ [n])
                     (<[OID it := stateOf it]> (updatedArticles st))
       ∧ ID n = newID it ∧ Title n = ArticleTitle it.
Proof. intros Hs. unfold reconcileStep. rewrite Hs. simpl. eauto. Qed.

Lemma reconcileStep_updated m st it seenState :
  seenArticles m !! OID it = Some seenState →
  LastUpdateTime seenState < timeValueOf it
  ∨ CommentCount seenState < ArticleCommentCount it →
  ∃ n, reconcileStep m st it
       = mkReconcile (newNotifications st ++ [n])
                     (<[OID it := stateOf it]> (updatedArticles st))
       ∧ ID n = updatedID it ∧ Title n = "有新回帖: " +:+ ArticleTitle it.
Proof.
  intros Hs Hch. unfold reconcileStep. rewrite Hs.
  assert (Hb : (timeValueOf it >? LastUpdateTime seenState)
               || (ArticleCommentCount it >? CommentCount seenState) = true).
  { apply orb_true_iff. rewrite !Z.gtb_lt. done. }
  rewrite Hb. simpl. eauto.
Qed.

Lemma reconcileStep_unchanged m st it seenState :
  seenArticles m !! OID it = Some seenState →
  timeValueOf it ≤ LastUpdateTime seenState →
  ArticleCommentCount it ≤ CommentCount seenState →
  reconcileStep m st it = st.
Proof.
  intros Hs Ht Hc. unfold reconcileStep. rewrite Hs.
  assert (Hb : (timeValueOf it >? LastUpdateTime seenState)
               || (ArticleCommentCount it >? CommentCount seenState) = false).
  { apply orb_false_iff. rewrite !Z.gtb_ltb, !Z.ltb_ge. done. }
  by rewrite Hb.
Qed.

(** A successful fetch, unfolded. *)
Lemma FetchRecentReplies_Ok Do m d m' d' reqs ns :
  FetchRecentReplies Do m d = (m', d', reqs, Ok ns) →
  ∃ body apiResp,
    httpGet Do m (baseURL m +:+ "/api/v2/articles/latest/reply?p=1")
    = (reqs, Ok body)
    ∧ UnmarshalArticles body = Ok apiResp ∧ aCode apiResp = 0
    ∧ let st := foldl (reconcileStep m) (mkReconcile [] ∅) (Articles apiResp) in
      ns = newNotifications st
      ∧ m' = withSeenArticles m
               (rewriteSeen (seenArticles m) (updatedArticles st) (Articles apiResp))
      ∧ d' = saveSeenArticles m' d.
Proof.
  unfold FetchRecentReplies.
  destruct (httpGet Do m _) as [reqs0 [body|e]]; [|done].
  destruct (UnmarshalArticles body) as [apiResp|e] eqn:Eu; [|done].
  destruct (aCode apiResp =? 0) eqn:Ec; [|done]. simpl.
  intros [= <- <- <- <-]. exists body, apiResp.
  apply Z.eqb_eq in Ec. cbv zeta. repeat split; done.
Qed.

Lemma FetchRecentReplies_answer Do m d reqs body apiResp :
  httpGet Do m (baseURL m +:+ "/api/v2/articles/latest/reply?p=1") = (reqs, Ok body) →
  UnmarshalArticles body = Ok apiResp → aCode apiResp = 0 →
  let st := foldl (reconcileStep m) (mkReconcile [] ∅) (Articles apiResp) in
  let m' := withSeenArticles m
              (rewriteSeen (seenArticles m) (updatedArticles st) (Articles apiResp)) in
  FetchRecentReplies Do m d = (m', saveSeenArticles m' d, reqs, Ok (newNotifications st)).
Proof.
  intros Hg Hu Hc. unfold FetchRecentReplies. by rewrite Hg, Hu, Hc.
Qed.

(** What [saveSeenArticles] leaves on a disk that accepts the write. *)
Lemma saveSeenArticles_file m d data :
  MarshalArticleStates (seenArticles m) = Ok data →
  mkdirFails d = false → writeFails d = false →
  files (saveSeenArticles m d) !! stateFilePath m = Some data.
Proof.
  intros Hm Hmk Hw. unfold saveSeenArticles, os.MkdirAll, os.WriteFile.
  rewrite Hm, Hmk. simpl. rewrite Hw. simpl. by rewrite lookup_insert_eq.
Qed.

(** C8.  When [FetchRecentReplies] succeeds, the per-item state of the
    monitor has an entry for an identifier exactly when an item of the
    decoded listing carries it; every entry holds the update time and the
    reply count of a listed item with that identifier; and this state is
    what [saveSeenArticles] writes to the state file when the disk accepts
    the write. *)
Theorem C8_state_matches_listing Do m d m' d' reqs ns :
  FetchRecentReplies Do m d = (m', d', reqs, Ok ns) →
  ∃ body apiResp,
    httpGet Do m (baseURL m +:+ "/api/v2/articles/latest/reply?p=1")
    = (reqs, Ok body)
    ∧ UnmarshalArticles body = Ok apiResp
    ∧ (∀ id, is_Some (seenArticles m' !! id) ↔ id ∈ OID <$> Articles apiResp)
    ∧ (∀ id st, seenArticles m' !! id = Some st →
         ∃ it, it ∈ Articles apiResp ∧ OID it = id ∧ st = stateOf it)
    ∧ (∀ data, MarshalArticleStates (seenArticles m') = Ok data →
         mkdirFails d = false → writeFails d = false →
         files d' !! stateFilePath m' = Some data).
Proof.
  intros Hf. apply FetchRecentReplies_Ok in Hf
    as (body & apiResp & Hg & Hu & Hc & Hns & Hm & Hd). cbv zeta in *.
  exists body, apiResp. split; [done|]. split; [done|].
  set (st := foldl (reconcileStep m) (mkReconcile [] ∅) (Articles apiResp)) in *.
  assert (Hentry : ∀ id s, seenArticles m' !! id = Some s →
            id ∈ OID <$> Articles apiResp
            ∧ ∃ it, it ∈ Articles apiResp ∧ OID it = id ∧ s = stateOf it).
  { intros id s. rewrite Hm. simpl. rewrite rewriteSeen_lookup.
    intros [Hin [Hup|(_ & it & Hlast & ->)]]; (split; [done|]).
    - apply reconcile_updated in Hup as [Hup|Hup]; [|done].
      simpl in Hup. by rewrite lookup_empty in Hup.
    - apply last_filter_Some in Hlast as [? ?]. by exists it. }
  split; [|split].
  - intros id. split.
    + intros [s Hs]. by apply Hentry in Hs as [? _].
    + intros Hin. rewrite Hm. simpl.
      destruct (updatedArticles st !! id) as [s|] eqn:Eu.
      * exists s. apply rewriteSeen_lookup. split; [done|]. by left.
      * apply list_elem_of_fmap in Hin as (it & -> & Hit).
        destruct (last_filter_is_Some (λ it', OID it' = OID it)
                    (Articles apiResp) it Hit eq_refl) as [it' Hlast].
        exists (stateOf it'). apply rewriteSeen_lookup.
        split; [by apply list_elem_of_fmap_2|]. right. split; [done|]. by exists it'.
  - intros id s Hs. by apply Hentry in Hs as [_ ?].
  - intros data Hma Hmk Hw. rewrite Hd. by apply saveSeenArticles_file.
Qed.
(** The state kept for the only item of a listing in which it was found
    new or updated. *)
Lemma rewriteSeen_singleton seen updated it :
  rewriteSeen seen (<[OID it := stateOf it]> updated) [it] !! OID it
  = Some (stateOf it).
Proof.
  apply rewriteSeen_lookup. split; [by left|]. left. by rewrite lookup_insert_eq.
Qed.

(** C6 (the defect).  An item is seen with new replies twice in a row: at
    the first fetch its update time has increased, at the second only its
    reply count has.  Each fetch returns exactly one notification, and the
    two have the same identifier: the second "updated" notification is not
    distinct from the previous one. *)
Theorem C6_repeated_update_same_identifier Do1 Do2 m d it1 it2 seenState
    reqs1 body1 msg1 reqs2 body2 msg2 :
  let url := baseURL m +:+ "/api/v2/articles/latest/reply?p=1" in
  seenArticles m !! OID it1 = Some seenState →
  LastUpdateTime seenState < timeValueOf it1 →
  OID it2 = OID it1 →
  timeValueOf it2 = timeValueOf it1 →
  ArticleCommentCount it1 < ArticleCommentCount it2 →
  httpGet Do1 m url = (reqs1, Ok body1) →
  UnmarshalArticles body1 = Ok (mkArticlesResp 0 [it1] msg1) →
  httpGet Do2 m url = (reqs2, Ok body2) →
  UnmarshalArticles body2 = Ok (mkArticlesResp 0 [it2] msg2) →
  let '(m1, d1, _, r1) := FetchRecentReplies Do1 m d in
  let '(_, _, _, r2) := FetchRecentReplies Do2 m1 d1 in
  ∃ n1 n2, r1 = Ok [n1] ∧ r2 = Ok [n2]
           ∧ ID n1 = updatedID it1 ∧ ID n2 = updatedID it1.
Proof.
  intros url Hseen Ht Hoid Hsame Hc Hg1 Hu1 Hg2 Hu2.
  rewrite (FetchRecentReplies_answer Do1 m d reqs1 body1 _ Hg1 Hu1 eq_refl).
  simpl Articles. simpl foldl.
  destruct (reconcileStep_updated m (mkReconcile [] ∅) it1 seenState Hseen)
    as (n1 & -> & Hid1 & _); [by left|]. simpl.
  set (m1 := withSeenArticles m _).
  assert (Hseen1 : seenArticles m1 !! OID it2 = Some (stateOf it1)).
  { subst m1. simpl. rewrite Hoid. apply rewriteSeen_singleton. }
  rewrite (FetchRecentReplies_answer Do2 m1 _ reqs2 body2 _ Hg2 Hu2 eq_refl).
  simpl Articles. simpl foldl.
  destruct (reconcileStep_updated m1 (mkReconcile [] ∅) it2 (stateOf it1) Hseen1)
    as (n2 & -> & Hid2 & _); [by right|]. simpl.
  exists n1, n2. repeat split; [done|].
  rewrite Hid2. unfold updatedID. by rewrite Hoid, Hsame.
Qed.
End RepliesFacts.

(** * The ld246 monitor: requests and unread messages *)

Section MessagesFacts.
Import Ld246.
Context {STR : StringsLib} {UL : UrlLib} {LL : Lib}.

Lemma prepare_no_token m req :
  token m = "" → prepare m req = HeaderSet req "User-Agent" "NotifyMe/1.0".
Proof. intros Ht. unfold prepare. by rewrite Ht. Qed.

Lemma httpGet_requests Do m url :
  validURL url = true →
  (httpGet Do m url).1 = [prepare m (mkRequest "GET" url [])].
Proof.
  intros Hv. unfold httpGet, NewRequest. rewrite Hv.
  destruct (Do _) as [resp|e]; [|done].
  destruct (checkStatus resp); [done|]. by destruct (Body resp).
Qed.

Lemma FetchRecentReplies_requests Do m d :
  (FetchRecentReplies Do m d).1.2
  = (httpGet Do m (baseURL m +:+ "/api/v2/articles/latest/reply?p=1")).1.
Proof.
  unfold FetchRecentReplies.
  destruct (httpGet Do m _) as [reqs [body|e]]; [|done].
  destruct (UnmarshalArticles body) as [apiResp|e]; [|done].
  by destruct (negb _).
Qed.

Lemma fetchCategory_requests Do count notificationType acc :
  acc.1.2 `prefix_of` (fetchCategory Do count notificationType acc).1.2.
Proof.
  unfold fetchCategory. destruct acc as [[[m d] reqs] ns]. simpl.
  destruct (count >? 0); [|done].
  destruct (fetchNotificationsByType Do m d notificationType)
    as [[[m' d'] reqs'] [found|e]]; simpl; by apply prefix_app_r.
Qed.

Lemma FetchUnreadMessages_requests Do now m d :
  (httpGet Do m (baseURL m +:+ "/api/v2/notifications/unread/count")).1
  `prefix_of` (FetchUnreadMessages Do now m d).1.2.
Proof.
  unfold FetchUnreadMessages.
  destruct (httpGet Do m _) as [reqs [body|e]]; [|done].
  destruct (UnmarshalCount body) as [counts|e]; [|done].
  destruct (negb _); [done|]. destruct (_ =? 0); [done|].
  set (acc0 := (m, d, reqs, [])).
  set (acc1 := fetchCategory Do _ "commented" acc0).
  set (acc2 := fetchCategory Do _ "at" acc1).
  set (acc3 := fetchCategory Do _ "reply" acc2).
  set (acc4 := fetchCategory Do _ "following" acc3).
  assert (Hp : reqs `prefix_of` acc4.1.2).
  { change reqs with acc0.1.2.
    do 4 (etrans; [|apply fetchCategory_requests]). done. }
  destruct acc4 as [[[m' d'] reqs'] ns]. simpl in Hp.
  by destruct (_ >? 0).
Qed.

(** When only chat messages are unread the operation returns the synthetic
    notification alone and changes nothing. *)
Lemma FetchUnreadMessages_chatOnly Do now m d counts c :
  answersCount Do m counts → chatOnly counts c →
  ∃ reqs, FetchUnreadMessages Do now m d
          = (m, d, reqs, Ok [chatNotification c now]).
Proof.
  intros (reqs & body & Hg & Hu) (Hcode & Htot & H1 & H2 & H3 & H4 & Hc & Hpos).
  exists reqs. unfold FetchUnreadMessages. rewrite Hg, Hu, Hcode. simpl.
  apply Z.eqb_neq in Htot. rewrite Htot.
  unfold fetchCategory.
  assert (Hle : ∀ z, z ≤ 0 → (z >? 0) = false).
  { intros z Hz. rewrite Z.gtb_ltb. by apply Z.ltb_ge. }
  rewrite !Hle by done. rewrite Hc.
  by rewrite (proj2 (Z.gtb_lt c 0)).
Qed.

Lemma string_app_cons a s t : String a s +:+ t = String a (s +:+ t).
Proof. reflexivity. Qed.

Lemma string_app_nil_l t : "" +:+ t = t.
Proof. reflexivity. Qed.

(** The identifiers built for the four categories fetched in detail are
    not identifiers of chat notifications. *)
Lemma category_not_chat notificationType id c :
  notificationType ∈ ["commented"; "at"; "reply"; "following"] →
  "ld246_" +:+ notificationType +:+ "_" +:+ id ≠ chatID c.
Proof.
  unfold chatID. intros Ht Heq.
  repeat (apply elem_of_cons in Ht as [->|Ht];
          [rewrite !string_app_cons, !string_app_nil_l in Heq; discriminate Heq|]).
  by apply elem_of_nil in Ht.
Qed.

Lemma messageStep_ids m notificationType acc it n :
  n ∈ (messageStep m notificationType acc it).1 →
  n ∈ acc.1 ∨ ID n = "ld246_" +:+ notificationType +:+ "_" +:+ msgID it.
Proof.
  unfold messageStep. destruct (HasRead it); [by left|].
  destruct (mapGet _ _); [by left|]. simpl.
  intros [Hn|Hn]%elem_of_app; [by left|].
  apply list_elem_of_singleton in Hn as ->. by right.
Qed.

Lemma fetchNotificationsByType_ids Do m d notificationType m' d' reqs ns n :
  fetchNotificationsByType Do m d notificationType = (m', d', reqs, Ok ns) →
  n ∈ ns → ∃ id, ID n = "ld246_" +:+ notificationType +:+ "_" +:+ id.
Proof.
  unfold fetchNotificationsByType.
  destruct (httpGet Do m _) as [reqs0 [body|e]]; [|done].
  destruct (UnmarshalMessages body) as [apiResp|e]; [|done].
  destruct (negb _); [done|].
  assert (Hall : ∀ l acc n,
            n ∈ (foldl (messageStep m notificationType) acc l).1 →
            n ∈ acc.1
            ∨ ∃ id, ID n = "ld246_" +:+ notificationType +:+ "_" +:+ id).
  { clear. induction l as [|it l IH]; intros acc n Hn; simpl in Hn; [by left|].
    apply IH in Hn as [Hn|Hn]; [|by right].
    apply messageStep_ids in Hn as [Hn|Hn]; [by left | right; eauto]. }
  specialize (Hall (Data apiResp) ([], []) n).
  destruct (foldl _ _ (Data apiResp)) as [found newIDs]. simpl in Hall.
  destruct (0 <? length newIDs)%nat; intros [= _ _ _ <-] Hn;
    (destruct (Hall Hn) as [Hnil|?]; [by apply elem_of_nil in Hnil | done]).
Qed.

Lemma fetchCategory_ids Do count notificationType acc c :
  notificationType ∈ ["commented"; "at"; "reply"; "following"] →
  (∀ n, n ∈ acc.2 → ID n ≠ chatID c) →
  ∀ n, n ∈ (fetchCategory Do count notificationType acc).2 → ID n ≠ chatID c.
Proof.
  intros Ht Hacc. unfold fetchCategory. destruct acc as [[[m d] reqs] ns].
  simpl in Hacc. destruct (count >? 0); [|done].
  destruct (fetchNotificationsByType Do m d notificationType)
    as [[[m' d'] reqs'] [found|e]] eqn:Ef; simpl; [|done].
  intros n [Hn|Hn]%elem_of_app; [by apply Hacc|].
  destruct (fetchNotificationsByType_ids _ _ _ _ _ _ _ _ n Ef Hn) as [id ->].
  by apply category_not_chat.
Qed.

(** Whatever else is unread, a positive chat count in an answer whose total
    is not zero gives one synthetic notification, the last of the result,
    and no other notification of the result has the identifier of a chat
    notification. *)
Lemma FetchUnreadMessages_single_chat Do now m d counts :
  answersCount Do m counts → cCode counts = 0 →
  UnreadNotificationCnt counts ≠ 0 → 0 < UnreadChatNotificationCnt counts →
  ∃ others,
    (FetchUnreadMessages Do now m d).2
    = Ok (others ++ [chatNotification (UnreadChatNotificationCnt counts) now])
    ∧ ∀ n c, n ∈ others → ID n ≠ chatID c.
Proof.
  intros (reqs & body & Hg & Hu) Hcode Htot Hpos.
  unfold FetchUnreadMessages. rewrite Hg, Hu, Hcode.
  change (negb (0 =? 0)) with false. cbv iota.
  apply Z.eqb_neq in Htot. rewrite Htot.
  set (acc0 := (m, d, reqs, [])).
  set (acc1 := fetchCategory Do _ "commented" acc0).
  set (acc2 := fetchCategory Do _ "at" acc1).
  set (acc3 := fetchCategory Do _ "reply" acc2).
  set (acc4 := fetchCategory Do _ "following" acc3).
  assert (Hids : ∀ n c, n ∈ acc4.2 → ID n ≠ chatID c).
  { intros n c. revert n. subst acc4 acc3 acc2 acc1.
    repeat (apply fetchCategory_ids;
            [repeat first [by left | right] |]).
    intros n Hn. by apply elem_of_nil in Hn. }
  destruct acc4 as [[[m' d'] reqs'] ns]. simpl in Hids.
  rewrite (proj2 (Z.gtb_lt _ 0)) by done. by exists ns.
Qed.

Lemma chatID_inj c c' : chatID c = chatID c' → c = c'.
Proof.
  unfold chatID. intros Heq. apply String.app_inj in Heq.
  by apply pretty_Z_inj in Heq.
Qed.
End MessagesFacts.

(** * The checks of the scheduler *)

Section PollingFacts.
Import Scheduler.
Context {STR : StringsLib} {UL : UrlLib} {GL : GitHub.Lib} {LL : Ld246.Lib}
        {SL : Lib}.
Variable Push : nat → Notifier.Toast → option string.
Variable Abs : string → Result string.

Lemma addNotifications_others s d batch :
  notifier (addNotifications s d batch).1 = notifier s
  ∧ ld246Monitor (addNotifications s d batch).1 = ld246Monitor s.
Proof.
  unfold addNotifications. destruct (length batch =? 0)%nat; [done|].
  by destruct (updateRecent _ _).
Qed.

Lemma withLd246_same s : withLd246 s (ld246Monitor s) = s.
Proof. by destruct s. Qed.

(** The check of the unread messages when only chat messages are unread. *)
Lemma checkLd246Messages_chatOnly Do now s d counts c :
  answersCount Do (ld246Monitor s) counts → chatOnly counts c →
  checkLd246Messages Push Abs Do now s d
  = addNotifications
      (withNotifier s
         (Notifier.Notify Push Abs (notifier s) (Ld246.chatNotification c now)).1)
      d [Ld246.chatNotification c now].
Proof.
  intros Ha Hc. unfold checkLd246Messages.
  destruct (FetchUnreadMessages_chatOnly Do now (ld246Monitor s) d counts c Ha Hc)
    as [reqs ->].
  by rewrite withLd246_same.
Qed.

(** C5 (amended).  Without a token the GitHub monitor fails at once and
    sends nothing; the two operations of the ld246 monitor do not look at
    the token before sending: without one, [FetchRecentReplies] sends its
    one request and [FetchUnreadMessages] sends first its count request,
    both without an [Authorization] header. *)
Theorem C5_token_checked_by_github_only :
  (∀ Do m since,
     GitHub.token m = "" →
     failsFast (GitHub.FetchNotificationsSince Do m since)
     ∧ GitHub.FetchNotificationsSince Do m since = (m, [], Err "GitHub token 未设置"))
  ∧ (∀ Do m d,
       let url := Ld246.baseURL m +:+ "/api/v2/articles/latest/reply?p=1" in
       Ld246.token m = "" → validURL url = true →
       (Ld246.FetchRecentReplies Do m d).1.2
       = [mkRequest "GET" url [("User-Agent", "NotifyMe/1.0")]])
  ∧ (∀ Do now m d,
       let url := Ld246.baseURL m +:+ "/api/v2/notifications/unread/count" in
       Ld246.token m = "" → validURL url = true →
       ∃ rest,
         (Ld246.FetchUnreadMessages Do now m d).1.2
         = mkRequest "GET" url [("User-Agent", "NotifyMe/1.0")] :: rest).
Proof.
  split; [|split].
  - intros Do m since Ht.
    rewrite (FetchNotificationsSince_no_token Do m since Ht). by split.
  - intros Do m d url Ht Hv.
    rewrite FetchRecentReplies_requests, httpGet_requests by done.
    by rewrite prepare_no_token.
  - intros Do now m d url Ht Hv.
    destruct (FetchUnreadMessages_requests Do now m d) as [rest Hr].
    rewrite httpGet_requests, prepare_no_token in Hr by done.
    exists rest. by rewrite Hr.
Qed.

(** C7.  (a) Whatever else is unread, a positive count of unread chat
    messages, in an answer whose total is not zero, gives one synthetic
    notification, whose identifier embeds the count; no other notification
    of the result has the identifier of a chat notification.  (b) In one
    process, two consecutive checks find only chat messages unread, [c1] of
    them and then [c2]; the identifiers of the two counts have not been
    delivered and are not in the list, and the first call of the sink
    succeeds.  Each fetch returns the synthetic notification alone; when
    [c1 = c2] the sink has been called once in all and the list holds one
    entry under that identifier; when [c1 ≠ c2] the identifiers differ, the
    sink has been called for each and the list holds both. *)
Theorem C7_chat_count_identifier :
  (∀ Do now m d counts,
     answersCount Do m counts → Ld246.cCode counts = 0 →
     Ld246.UnreadNotificationCnt counts ≠ 0 →
     0 < Ld246.UnreadChatNotificationCnt counts →
     let chat :=
       Ld246.chatNotification (Ld246.UnreadChatNotificationCnt counts) now in
     ∃ others,
       (Ld246.FetchUnreadMessages Do now m d).2 = Ok (others ++ [chat])
       ∧ ID chat = "ld246_chat_" +:+ pretty (Ld246.UnreadChatNotificationCnt counts)
       ∧ ∀ n c, n ∈ others → ID n ≠ chatID c)
  ∧ (∀ Do1 Do2 now1 now2 s d counts1 counts2 c1 c2,
       let n1 := Ld246.chatNotification c1 now1 in
       let n2 := Ld246.chatNotification c2 now2 in
       let toast1 := Notifier.buildToast Abs (notifier s) n1 in
       let toast2 := Notifier.buildToast Abs (notifier s) n2 in
       answersCount Do1 (ld246Monitor s) counts1 → chatOnly counts1 c1 →
       answersCount Do2 (ld246Monitor s) counts2 → chatOnly counts2 c2 →
       Notifier.IsNotified (notifier s) (chatID c1) = false →
       Notifier.IsNotified (notifier s) (chatID c2) = false →
       chatID c1 ∉ ids (GetRecentNotifications s) →
       chatID c2 ∉ ids (GetRecentNotifications s) →
       Push (length (Notifier.pushed (notifier s))) toast1 = None →
       let '(s1, d1) := checkLd246Messages Push Abs Do1 now1 s d in
       let '(s2, d2) := checkLd246Messages Push Abs Do2 now2 s1 d1 in
       (Ld246.FetchUnreadMessages Do1 now1 (ld246Monitor s) d).2 = Ok [n1]
       ∧ (Ld246.FetchUnreadMessages Do2 now2 (ld246Monitor s1) d1).2 = Ok [n2]
       ∧ (c1 = c2 →
            Notifier.pushed (notifier s2)
            = Notifier.pushed (notifier s) ++ [(chatID c1, toast1)]
            ∧ callsFor (chatID c1) (notifier s2)
              = S (callsFor (chatID c1) (notifier s))
            ∧ filter (λ n, ID n = chatID c1) (GetRecentNotifications s2) = [n2])
       ∧ (c1 ≠ c2 →
            ID n1 ≠ ID n2
            ∧ Notifier.pushed (notifier s2)
              = Notifier.pushed (notifier s)
                ++ [(chatID c1, toast1); (chatID c2, toast2)]
            ∧ ∃ rest, GetRecentNotifications s2 = n2 :: n1 :: rest)).
Proof.
  split.
  { intros Do now m d counts Ha Hcode Htot Hpos chat.
    destruct (FetchUnreadMessages_single_chat Do now m d counts Ha Hcode Htot Hpos)
      as (others & Hres & Hids).
    exists others. by repeat split. }
  intros Do1 Do2 now1 now2 s d counts1 counts2 c1 c2.
  intros n1 n2 toast1 toast2 Ha1 Hc1 Ha2 Hc2 Hn1 Hn2 Hr1 Hr2 Hpush.
  unfold GetRecentNotifications in *.
  (* the first check *)
  rewrite (checkLd246Messages_chatOnly Do1 now1 s d counts1 c1 Ha1 Hc1).
  fold n1. rewrite (Notify_success Push Abs (notifier s) n1 Hn1 Hpush). simpl fst.
  set (g1 := Notifier.mkNotifier _ _ _).
  destruct (addNotifications (withNotifier s g1) d [n1]) as [s1 d1] eqn:E1.
  assert (Hs1 : notifier s1 = g1 ∧ ld246Monitor s1 = ld246Monitor s
                ∧ recentNotifications s1 = take 50 (n1 :: recentNotifications s)).
  { destruct (addNotifications_others (withNotifier s g1) d [n1]) as [Hg Hm].
    pose proof (addNotifications_recent (withNotifier s g1) d [n1]) as Hrec.
    rewrite E1 in Hg, Hm, Hrec. simpl in Hg, Hm, Hrec.
    rewrite updateRecent_fresh_singleton in Hrec by done. done. }
  destruct Hs1 as (Hg1 & Hm1 & Hrec1).
  (* the second check *)
  rewrite <- Hm1 in Ha2.
  rewrite (checkLd246Messages_chatOnly Do2 now2 s1 d1 counts2 c2 Ha2 Hc2).
  fold n2.
  destruct (addNotifications _ d1 [n2]) as [s2 d2] eqn:E2.
  pose proof (addNotifications_others
                (withNotifier s1 (Notifier.Notify Push Abs (notifier s1) n2).1)
                d1 [n2]) as [Hg2 _].
  pose proof (addNotifications_recent
                (withNotifier s1 (Notifier.Notify Push Abs (notifier s1) n2).1)
                d1 [n2]) as Hrec2.
  rewrite E2 in Hg2, Hrec2. simpl in Hg2, Hrec2.
  destruct (FetchUnreadMessages_chatOnly Do1 now1 (ld246Monitor s) d counts1 c1
              Ha1 Hc1) as [reqs1 ->].
  destruct (FetchUnreadMessages_chatOnly Do2 now2 (ld246Monitor s1) d1 counts2 c2
              Ha2 Hc2) as [reqs2 ->].
  do 2 (split; [done|]). split.
  - (* the same count *)
    intros <-. assert (Hmarked : Notifier.IsNotified (notifier s1) (ID n2) = true).
    { rewrite Hg1. unfold Notifier.IsNotified, g1. simpl.
      by rewrite mapGet_insert_true, bool_decide_eq_true_2. }
    rewrite (Notify_notified Push Abs (notifier s1) n2 Hmarked) in Hg2.
    simpl in Hg2. split; [by rewrite Hg2, Hg1|]. split.
    { unfold callsFor. rewrite Hg2, Hg1. unfold g1. simpl.
      rewrite filter_app, length_app, filter_cons. simpl.
      rewrite decide_True by done. simpl. lia. }
    rewrite Hrec2, Hrec1.
    rewrite updateRecent_moved_singleton by (simpl; left; done).
    simpl default. simpl take. rewrite filter_cons, decide_True by done.
    f_equal. apply filter_none. intros x Hx.
    apply (subseteq_take 49) in Hx. apply list_elem_of_filter in Hx as [Hne _].
    exact Hne.
  - (* two different counts *)
    intros Hne. assert (Hids : ID n1 ≠ ID n2).
    { intros Heq. by apply chatID_inj in Heq. }
    split; [done|].
    assert (Hfresh : Notifier.IsNotified (notifier s1) (ID n2) = false).
    { rewrite Hg1. unfold Notifier.IsNotified, g1. simpl.
      rewrite mapGet_insert_true, bool_decide_eq_false_2 by done. exact Hn2. }
    destruct (Notify_cases Push Abs (notifier s1) n2) as [_ [[Hy _]|(_ & Hp & _)]];
      [congruence|].
    cbv zeta in Hp. split.
    + rewrite Hg2, Hp, Hg1. simpl. by rewrite <- app_assoc.
    + rewrite Hrec2, Hrec1. rewrite updateRecent_fresh_singleton.
      * simpl. eauto.
      * intros (x & Hx & Hxin)%list_elem_of_fmap.
        apply (subseteq_take 50) in Hxin.
        apply elem_of_cons in Hxin as [->|Hxin]; [by apply Hids|].
        apply Hr2. change (chatID c2) with (ID n2). rewrite Hx.
        by apply list_elem_of_fmap_2.
Qed.
End PollingFacts.

(** * The notifications file *)

Section FileFacts.
Import Scheduler.
Context {SL : Lib}.


Lemma Stat_file d p data : files d !! p = Some data → os.Stat d p = true.
Proof.
  intros Hf. unfold os.Stat. rewrite (bool_decide_eq_true_2 (is_Some _)); [|eauto].
  apply orb_true_r.
Qed.

(** Loading a file that is there, can be read and decodes. *)
Lemma loadNotifications_ok s d d' p data l :
  getNotificationsFilePath d = (d', p) →
  files d' !! p = Some data → readFails d' = false → Unmarshal data = Ok l →
  loadNotifications s d = (withRecent s (take 50 l), d', None).
Proof.
  intros Hp Hf Hr Hu. unfold loadNotifications. rewrite Hp.
  rewrite (Stat_file d' p data Hf). simpl.
  unfold os.ReadFile. rewrite Hr, Hf, Hu. by rewrite truncate_take.
Qed.






(** C10.  Loading a file that decodes to [l] puts the first 50 records of
    [l] in the list, as they are: two records under one identifier among
    them are both in the list afterwards, at their places, so that the
    identifiers of the list are not distinct.  Distinctness is a property
    that [addNotifications] keeps, not one that it or the load restores:
    it holds after a call when it held before, and a list with a repeated
    identifier still has it after a new notification is added. *)
Theorem C10_load_keeps_duplicates :
  (∀ s d d' p data l,
     getNotificationsFilePath d = (d', p) →
     files d' !! p = Some data → readFails d' = false →
     Unmarshal data = Ok l →
     let recent := GetRecentNotifications (loadNotifications s d).1.1 in
     recent = take 50 l
     ∧ ∀ i j a b,
         (i < j < 50)%nat → l !! i = Some a → l !! j = Some b → ID a = ID b →
         recent !! i = Some a ∧ recent !! j = Some b ∧ ¬ NoDup (ids recent))
  ∧ (∀ s d batch,
       NoDup (ids (GetRecentNotifications s)) →
       NoDup (ids (GetRecentNotifications (addNotifications s d batch).1)))
  ∧ (∀ s d n,
       ¬ NoDup (ids (GetRecentNotifications s)) →
       ID n ∉ ids (GetRecentNotifications s) →
       (length (GetRecentNotifications s) < 50)%nat →
       ¬ NoDup (ids (GetRecentNotifications (addNotifications s d [n]).1))).
Proof.
  split; [|split].
  - intros s d d' p data l Hp Hf Hr Hu.
    rewrite (loadNotifications_ok s d d' p data l Hp Hf Hr Hu).
    unfold GetRecentNotifications. simpl. split; [done|].
    intros i j a b [Hij Hj] Ha Hb Hid.
    assert (Hi' : take 50 l !! i = Some a) by (rewrite lookup_take_lt; [done|lia]).
    assert (Hj' : take 50 l !! j = Some b) by (rewrite lookup_take_lt; [done|lia]).
    split; [done|]. split; [done|].
    intros Hnd. assert (i = j); [|lia].
    eapply (NoDup_lookup _ i j (ID a)); [exact Hnd|..]; unfold ids.
    + by rewrite list_lookup_fmap, Hi'.
    + by rewrite list_lookup_fmap, Hj', Hid.
  - intros s d batch Hnd. unfold GetRecentNotifications in *.
    rewrite addNotifications_recent. destruct batch as [|n batch]; [done|].
    destruct (updateRecent _ _) as [recent'|] eqn:E; [|done].
    apply updateRecent_invariant in E as [_ Hkeep]. by apply Hkeep.
  - intros s d n Hdup Hout Hlen. unfold GetRecentNotifications in *.
    rewrite addNotifications_recent, updateRecent_fresh_singleton by done.
    simpl default. rewrite take_ge by (simpl; lia).
    intros Hnd. apply Hdup. simpl in Hnd. by apply NoDup_cons in Hnd as [_ ?].
Qed.
End FileFacts.

(** C5 as stated fails: without a token [FetchRecentReplies] and
    [FetchUnreadMessages] send a request, and here they succeed. *)
Lemma C5_counterexample :
  Ld246.token Sample.ld246 = ""
  ∧ ¬ failsFast (Ld246.FetchRecentReplies (STR := Sample.stringsLib)
                   (UL := Sample.urlLib) (LL := Sample.ld246Lib)
                   Sample.remote Sample.ld246 Sample.disk)
  ∧ ¬ failsFast (Ld246.FetchUnreadMessages (UL := Sample.urlLib)
                   (LL := Sample.ld246Lib)
                   Sample.remote 0 Sample.ld246 Sample.disk).
Proof.
  split; [done|]. split; intros [Hreq _]; vm_compute in Hreq; discriminate Hreq.
Qed.

Lemma C5_witness :
  GitHub.token (GitHub.NewGitHubMonitor "") = ""
  ∧ failsFast (GitHub.FetchNotificationsSince (STR := Sample.stringsLib)
                 (UL := Sample.urlLib) (GL := Sample.githubLib)
                 Sample.remote (GitHub.NewGitHubMonitor "") 0)
  ∧ Ld246.token Sample.ld246 = ""
  ∧ (Ld246.FetchRecentReplies (STR := Sample.stringsLib) (UL := Sample.urlLib)
       (LL := Sample.ld246Lib) Sample.remote Sample.ld246 Sample.disk).1.2
    = [mkRequest "GET" "https://ld246.com/api/v2/articles/latest/reply?p=1"
                 [("User-Agent", "NotifyMe/1.0")]].
Proof.
  destruct (C5_token_checked_by_github_only (STR := Sample.stringsLib)
              (UL := Sample.urlLib) (GL := Sample.githubLib)
              (LL := Sample.ld246Lib)) as (Hg & Hr & _).
  split; [done|]. split.
  - apply (Hg Sample.remote (GitHub.NewGitHubMonitor "") 0). done.
  - split; [done|]. apply (Hr Sample.remote Sample.ld246 Sample.disk); done.
Defined.

Lemma C6_witness :
  let Do1 := Sample.serve "X:200:2" in
  let Do2 := Sample.serve "X:200:3" in
  Ld246.seenArticles Sample.ld246Seen !! "X" = Some (Ld246.mkState 100 1)
  ∧ 100 < Ld246.timeValueOf (Sample.article 200 2)
  ∧ Ld246.timeValueOf (Sample.article 200 3) = Ld246.timeValueOf (Sample.article 200 2)
  ∧ 2 < 3
  ∧ let '(m1, d1, _, r1) :=
      Ld246.FetchRecentReplies (STR := Sample.stringsLib) (UL := Sample.urlLib)
        (LL := Sample.ld246Lib) Do1 Sample.ld246Seen Sample.disk in
    let '(_, _, _, r2) :=
      Ld246.FetchRecentReplies (STR := Sample.stringsLib) (UL := Sample.urlLib)
        (LL := Sample.ld246Lib) Do2 m1 d1 in
    ∃ n1 n2, r1 = Ok [n1] ∧ r2 = Ok [n2]
             ∧ ID n1 = "ld246_article_X_200" ∧ ID n2 = "ld246_article_X_200".
Proof.
  intros Do1 Do2. do 4 (split; [done|]).
  eapply (C6_repeated_update_same_identifier (STR := Sample.stringsLib)
            (UL := Sample.urlLib) (LL := Sample.ld246Lib)
            Do1 Do2 Sample.ld246Seen Sample.disk
            (Sample.article 200 2) (Sample.article 200 3) (Ld246.mkState 100 1)
            _ "X:200:2" "" _ "X:200:3" "");
    [reflexivity | done | reflexivity | reflexivity | done
    | reflexivity | reflexivity | reflexivity | reflexivity].
Defined.

Lemma C8_witness :
  let r := Ld246.FetchRecentReplies (STR := Sample.stringsLib)
             (UL := Sample.urlLib) (LL := Sample.ld246Lib)
             (Sample.serve "X:200:2") Sample.ld246 Sample.disk in
  isErr r.2 = false
  ∧ ∀ id, is_Some (Ld246.seenArticles r.1.1.1 !! id) ↔ id ∈ ["X"].
Proof.
  intros r. split; [done|].
  destruct r as [[[m' d'] reqs] [ns|e]] eqn:Er; [|done].
  destruct (C8_state_matches_listing (STR := Sample.stringsLib)
              (UL := Sample.urlLib) (LL := Sample.ld246Lib)
              (Sample.serve "X:200:2") Sample.ld246 Sample.disk m' d' reqs ns Er)
    as (body & apiResp & Hg & Hu & Hdom & _).
  injection Hg as _ <-. injection Hu as <-. exact Hdom.
Defined.

Lemma C7_witness :
  let Do1 := Sample.serve "chat:5" in
  let Do2 := Sample.serve "chat:8" in
  let check :=
    Scheduler.checkLd246Messages (UL := Sample.urlLib) (LL := Sample.ld246Lib)
      (SL := Sample.schedulerLib) Sample.reliableSink Sample.abs in
  chatOnly (Ld246.mkCountResp 0 5 0 0 0 5 0 "") 5
  ∧ chatOnly (Ld246.mkCountResp 0 8 0 0 0 8 0 "") 8
  ∧ let '(s1, d1) := check Do1 1 Sample.scheduler Sample.disk in
    let '(s2, d2) := check Do2 2 s1 d1 in
    ∃ rest, Scheduler.GetRecentNotifications s2
            = Ld246.chatNotification 8 2 :: Ld246.chatNotification 5 1 :: rest.
Proof.
  intros Do1 Do2 check.
  assert (H5 : chatOnly (Ld246.mkCountResp 0 5 0 0 0 5 0 "") 5).
  { unfold chatOnly. simpl. repeat split; lia. }
  assert (H8 : chatOnly (Ld246.mkCountResp 0 8 0 0 0 8 0 "") 8).
  { unfold chatOnly. simpl. repeat split; lia. }
  split; [exact H5|]. split; [exact H8|].
  destruct (C7_chat_count_identifier (UL := Sample.urlLib)
              (LL := Sample.ld246Lib) (SL := Sample.schedulerLib)
              Sample.reliableSink Sample.abs) as [_ Hchecks].
  pose proof (Hchecks Do1 Do2 1 2 Sample.scheduler Sample.disk
                (Ld246.mkCountResp 0 5 0 0 0 5 0 "")
                (Ld246.mkCountResp 0 8 0 0 0 8 0 "") 5 8) as Hthm.
  clear Hchecks.
  cbv zeta in Hthm.
  specialize (Hthm (ex_intro _ _ (ex_intro _ _ (conj eq_refl eq_refl))) H5
                   (ex_intro _ _ (ex_intro _ _ (conj eq_refl eq_refl))) H8
                   eq_refl eq_refl).
  specialize (Hthm ltac:(apply not_elem_of_nil) ltac:(apply not_elem_of_nil) eq_refl).
  revert Hthm. subst check. cbv zeta.
  destruct (Scheduler.checkLd246Messages _ _ Do1 1 _ _) as [s1 d1].
  destruct (Scheduler.checkLd246Messages _ _ Do2 2 s1 d1) as [s2 d2].
  intros (_ & _ & _ & Hne). apply Hne. done.
Defined.


Lemma C10_witness :
  let recent :=
    Scheduler.GetRecentNotifications
      (Scheduler.loadNotifications (SL := Sample.schedulerLib) Sample.scheduler
         (Sample.diskWith "[b,b]")).1.1 in
  ID Sample.nB = ID Sample.nB'
  ∧ recent = [Sample.nB; Sample.nB']
  ∧ ¬ NoDup (ids recent).
Proof.
  intros recent.
  destruct (C10_load_keeps_duplicates (SL := Sample.schedulerLib)) as [Hload _].
  destruct (Hload Sample.scheduler (Sample.diskWith "[b,b]")
                  (Sample.diskWith "[b,b]") Sample.notificationsPath "[b,b]"
                  [Sample.nB; Sample.nB'] eq_refl eq_refl eq_refl eq_refl)
    as [Heq Hdup].
  split; [done|]. split; [exact Heq|].
  apply (Hdup 0%nat 1%nat Sample.nB Sample.nB'); [lia | done..].
Defined.

(** * The helpers on every input *)

Lemma string_length_app (s t : string) :
  String.length (s +:+ t) = (String.length s + String.length t)%nat.
Proof.
  induction s as [|a s IH]; [done|].
  rewrite string_app_cons. simpl. by rewrite IH.
Qed.

Lemma string_length_substring (s : string) : ∀ n m,
  String.length (String.substring n m s) = (m `min` (String.length s - n))%nat.
Proof.
  induction s as [|a s IH]; intros [|n] [|m]; simpl; try done.
  all: rewrite IH; lia.
Qed.

Lemma substring_all (s : string) : String.substring 0 (String.length s) s = s.
Proof. induction s as [|a s IH]; [done|]. simpl. by rewrite IH. Qed.

Lemma substring_app_prefix (p t : string) :
  String.substring 0 (String.length p) (p +:+ t) = p.
Proof.
  induction p as [|a p IH].
  - rewrite string_app_nil_l. by destruct t.
  - rewrite string_app_cons. simpl. by rewrite IH.
Qed.

Lemma substring_app_suffix (p t : string) :
  String.substring (String.length p)
    (String.length (p +:+ t) - String.length p) (p +:+ t) = t.
Proof.
  induction p as [|a p IH].
  - rewrite string_app_nil_l. simpl. by rewrite Nat.sub_0_r, substring_all.
  - rewrite string_app_cons. simpl. by rewrite IH.
Qed.

Lemma has_prefix_app (p t : string) :
  (String.length p <=? String.length (p +:+ t))%nat
  && String.eqb (String.substring 0 (String.length p) (p +:+ t)) p = true.
Proof.
  rewrite substring_app_prefix, String.eqb_refl, andb_true_r.
  apply Nat.leb_le. rewrite string_length_app. lia.
Qed.

Lemma truncateString_bound s maxLen :
  (String.length (truncateString s maxLen) ≤ maxLen + 3)%nat.
Proof.
  unfold truncateString.
  destruct (Nat.leb_spec (String.length s) maxLen) as [Hle|Hlt]; [lia|].
  rewrite string_length_app, string_length_substring. simpl. lia.
Qed.








(** * The log writer *)

Section LoggerFacts.
Import Logger.

Lemma scanANSI_shorter (n : nat) : ∀ s inEscape,
  (String.length s ≤ n)%nat →
  (String.length (scanANSI inEscape s) ≤ String.length s)%nat.
Proof.
  induction n as [|n IH]; intros s inEscape Hn.
  - by destruct s; [|simpl in Hn; lia].
  - destruct s as [|c rest]; [done|]. simpl in Hn.
    destruct inEscape; simpl.
    + destruct (Ascii.eqb c "m"%char);
        (etrans; [apply IH; lia|lia]).
    + destruct rest as [|c' rest']; [done|].
      destruct (Ascii.eqb c ESC && Ascii.eqb c' "["%char).
      * simpl in Hn. etrans; [apply IH; lia|]. simpl. lia.
      * change (String.length (String c (scanANSI false (String c' rest'))))
          with (S (String.length (scanANSI false (String c' rest')))).
        assert (Hrec := IH (String c' rest') false ltac:(lia)).
        change (String.length (String c (String c' rest')))
          with (S (String.length (String c' rest'))).
        lia.
Qed.

Lemma scanANSI_plain (s : string) :
  hasByte ESC s = false → scanANSI false s = s.
Proof.
  induction s as [|c rest IH]; [done|].
  intros [Hc Hrest]%orb_false_elim.
  change (scanANSI false (String c rest))
    with (match rest with
          | String c' rest' =>
              if Ascii.eqb c ESC && Ascii.eqb c' "["%char
              then scanANSI true rest'
              else String c (scanANSI false rest)
          | EmptyString => String c EmptyString
          end).
  destruct rest as [|c' rest']; [done|].
  rewrite Hc. simpl andb. cbv iota. by rewrite IH.
Qed.

Lemma scanANSI_escape (params b : string) :
  hasByte "m"%char params = false →
  scanANSI true (params +:+ String "m"%char b) = scanANSI false b.
Proof.
  induction params as [|c params IH].
  - intros _. by rewrite string_app_nil_l.
  - intros [Hc Hrest]%orb_false_elim. rewrite string_app_cons.
    simpl. rewrite Hc. by apply IH.
Qed.

Lemma scanANSI_unterminated (rest : string) :
  hasByte "m"%char rest = false → scanANSI true rest = "".
Proof.
  induction rest as [|c rest IH]; [done|].
  intros [Hc Hrest]%orb_false_elim. simpl. rewrite Hc. by apply IH.
Qed.

Lemma scanANSI_open (a t : string) :
  hasByte ESC a = false →
  scanANSI false (a +:+ String ESC (String "["%char t)) = a +:+ scanANSI true t.
Proof.
  induction a as [|c a IH].
  - intros _. by rewrite !string_app_nil_l.
  - intros [Hc Hrest]%orb_false_elim. rewrite !string_app_cons.
    specialize (IH Hrest).
    destruct (a +:+ String ESC (String "["%char t)) as [|c' rest'] eqn:Happ.
    { destruct a; [rewrite string_app_nil_l in Happ|rewrite string_app_cons in Happ];
        discriminate. }
    change (scanANSI false (String c (String c' rest')))
      with (if Ascii.eqb c ESC && Ascii.eqb c' "["%char
            then scanANSI true rest'
            else String c (scanANSI false (String c' rest'))).
    rewrite Hc. simpl andb. cbv iota. by rewrite IH.
Qed.

(** X3.  [removeANSICodes] never lengthens its input and keeps an input
    without the byte [ESC] as it is; it drops the first sequence
    [ESC '[' params 'm'] and goes on behind it, and when no ['m'] follows
    the opening [ESC '['] it drops everything from there to the end. *)
Theorem removeANSICodes_spec (data : string) :
  (String.length (removeANSICodes data) ≤ String.length data)%nat
  ∧ (hasByte ESC data = false → removeANSICodes data = data)
  ∧ (∀ a params b,
       data = a +:+ String ESC (String "["%char (params +:+ String "m"%char b)) →
       hasByte ESC a = false → hasByte "m"%char params = false →
       removeANSICodes data = a +:+ removeANSICodes b)
  ∧ (∀ a params,
       data = a +:+ String ESC (String "["%char params) →
       hasByte ESC a = false → hasByte "m"%char params = false →
       removeANSICodes data = a).
Proof.
  unfold removeANSICodes. split_and!.
  - by apply (scanANSI_shorter (String.length data)).
  - apply scanANSI_plain.
  - intros a params b -> Ha Hparams. by rewrite scanANSI_open, scanANSI_escape.
  - intros a params -> Ha Hparams.
    by rewrite scanANSI_open, scanANSI_unterminated, string_app_nil_r.
Qed.
End LoggerFacts.

(** * The configuration *)

Section ConfigFacts.
Import Config.
Context {Viper : Type} {VL : Lib Viper}.

Lemma validLogLevels_spec level :
  mapGet validLogLevels level = true
  ↔ level ∈ ["debug"; "info"; "warn"; "error"].
Proof.
  unfold validLogLevels. rewrite <- insert_empty, !mapGet_insert_true, mapGet_empty.
  rewrite !orb_true_iff, !bool_decide_eq_true, !elem_of_cons, elem_of_nil.
  intuition congruence.
Qed.

(** X4.  [validateConfig] accepts a configuration exactly when its poll
    interval is at least 10 and its log level is one of [debug], [info],
    [warn] and [error]; the tokens are not looked at. *)
Theorem validateConfig_spec (config : Config) :
  validateConfig config = None
  ↔ 10 ≤ PollInterval config
    ∧ LogLevel config ∈ ["debug"; "info"; "warn"; "error"].
Proof.
  unfold validateConfig. rewrite <- validLogLevels_spec.
  destruct (Z.ltb_spec (PollInterval config) 10).
  - split; [done|lia].
  - destruct (mapGet validLogLevels (LogLevel config)); simpl.
    + done.
    + split; [done|]. by intros [_ ?].
Qed.

Lemma Load_cases (st : State Viper) (d : Disk) :
  let '(st', _, r) := Load st d in
  match r with
  | Ok config => globalConfig st' = Some config ∧ validateConfig config = None
  | Err _ => globalConfig st' = globalConfig st
  end.
Proof.
  unfold Load. destruct (getConfigPath d) as [d1 configPath].
  destruct (if negb (os.Stat d1 configPath) then _ else _) as [[v d2] [err|]];
    [done|].
  destruct (viperReadInConfig v d2) as [v'|]; [|done].
  destruct (viperUnmarshal v' _) as [config|]; [|done].
  by destruct (validateConfig _) eqn:Hvalid.
Qed.

Lemma Save_cases (st : State Viper) (d : Disk) (config : Config) :
  let '(st', d', err) := Save st d config in
  match err with
  | None => globalConfig st' = Some config ∧ validateConfig config = None
  | Some _ =>
      globalConfig st' = globalConfig st
      ∧ (validateConfig config ≠ None → st' = st ∧ d' = d)
  end.
Proof.
  unfold Save. destruct (validateConfig config) eqn:Hvalid; [done|].
  destruct (getConfigPath d) as [d1 configPath].
  by destruct (viperWriteConfigAs _ d1 configPath) as [d2 [err|]].
Qed.

(** X5.  The package variable [globalConfig] only ever holds a
    configuration that has passed [validateConfig]: [Load] and [Save] keep
    this, a configuration returned by [Load] validates and is the one
    [Get] returns afterwards, and so what [Get] returns always
    validates. *)
Theorem Config_valid_invariant :
  (∀ (st : State Viper) d, validGlobal st →
     validGlobal (Load st d).1.1
     ∧ ∀ config, (Load st d).2 = Ok config →
         validateConfig config = None ∧ Get (Load st d).1.1 = config)
  ∧ (∀ (st : State Viper) d config,
       validGlobal st → validGlobal (Save st d config).1.1)
  ∧ (∀ st : State Viper, validGlobal st → validateConfig (Get st) = None).
Proof.
  split_and!.
  - intros st d Hst. pose proof (Load_cases st d) as H.
    destruct (Load st d) as [[st' d'] [config|err]]; simpl.
    + destruct H as [Hg Hv]. split.
      * intros c Hc. congruence.
      * intros c [= <-]. split; [done|]. unfold Get. by rewrite Hg.
    + split; [|done]. intros c Hc. apply Hst. congruence.
  - intros st d config Hst. pose proof (Save_cases st d config) as H.
    destruct (Save st d config) as [[st' d'] [err|]]; simpl.
    + destruct H as [Hg _]. intros c Hc. apply Hst. congruence.
    + destruct H as [Hg Hv]. intros c Hc. congruence.
  - intros st Hst. unfold Get. destruct (globalConfig st) as [config|] eqn:Hg.
    + by apply Hst.
    + reflexivity.
Qed.
End ConfigFacts.

(** * The delivery guard, with a sink that does not fail *)

Section GuardMore.
Import Notifier.
Variable Push : nat → Toast → option string.
Variable Abs : string → Result string.

(** X6.  After [ClearNotified] no identifier is marked, the icon is kept,
    and the next [Notify] calls the sink whatever was delivered before. *)
Theorem ClearNotified_forgets n x :
  let n' := ClearNotified n in
  (∀ id, IsNotified n' id = false)
  ∧ iconPath n' = iconPath n
  ∧ pushed (Notify Push Abs n' x).1 = pushed n ++ [(ID x, buildToast Abs n x)].
Proof.
  cbv zeta. split_and!; [done..|].
  destruct (Notify_cases Push Abs (ClearNotified n) x) as [_ Hc]. cbv zeta in Hc.
  destruct Hc as [[Hm _]|(_ & Hp & _)]; [done|].
  rewrite Hp. simpl. f_equal.
Qed.

Lemma NotifyBatch_noop batch : ∀ n,
  (∀ x, x ∈ batch → IsNotified n (ID x) = true) →
  NotifyBatch Push Abs n batch = (n, None).
Proof.
  unfold NotifyBatch. induction batch as [|x batch IH]; intros n Hall; [done|].
  simpl. rewrite (Notify_notified Push Abs n x) by apply Hall, list_elem_of_here.
  simpl. apply IH. intros y Hy. apply Hall. by apply list_elem_of_further.
Qed.

Lemma Notify_reliable n x :
  (∀ k t, Push k t = None) →
  let n' := (Notify Push Abs n x).1 in
  iconPath n' = iconPath n
  ∧ (∀ id, IsNotified n' id = true ↔ IsNotified n id = true ∨ id = ID x)
  ∧ pushed n'
    = pushed n ++ (if IsNotified n (ID x) then [] else [(ID x, buildToast Abs n x)]).
Proof.
  intros Hrel. cbv zeta. destruct (IsNotified n (ID x)) eqn:Hn.
  - rewrite (Notify_notified Push Abs n x Hn). simpl. rewrite app_nil_r.
    split_and!; [done| |done]. intros id. split; [by left|].
    by intros [?| ->].
  - rewrite (Notify_success Push Abs n x Hn (Hrel _ _)). simpl.
    split_and!; [done| |done]. intros id. unfold IsNotified. simpl.
    rewrite mapGet_insert_true, orb_true_iff, bool_decide_eq_true.
    split; intros [?|?]; auto.
Qed.

Lemma NotifyBatch_marks_all batch : ∀ n x,
  (∀ k t, Push k t = None) → x ∈ batch →
  IsNotified (NotifyBatch Push Abs n batch).1 (ID x) = true.
Proof.
  induction batch as [|y batch IH]; intros n x Hrel Hx.
  { by apply elem_of_nil in Hx. }
  rewrite NotifyBatch_cons. apply elem_of_cons in Hx as [->|Hx].
  - destruct (Notify_reliable n y Hrel) as (_ & Hm & _). cbv zeta in Hm.
    apply (NotifyBatch_marked Push Abs batch). apply Hm. by right.
  - by apply IH.
Qed.

(** X7.  With a sink that does not fail, a batch makes one call for each
    identifier that is not yet marked, in the order of the batch and for
    the first notification that carries it, and marks every identifier of
    the batch. *)
Theorem NotifyBatch_once_in_order batch : ∀ n seen,
  (∀ k t, Push k t = None) →
  (∀ id, IsNotified n id = true ↔ id ∈ seen) →
  let n' := (NotifyBatch Push Abs n batch).1 in
  pushed n'
  = pushed n ++ ((λ x, (ID x, buildToast Abs n x)) <$> firstByID seen batch)
  ∧ ∀ id, IsNotified n' id = true ↔ id ∈ seen ∨ id ∈ ids batch.
Proof.
  induction batch as [|x batch IH]; intros n seen Hrel Hseen.
  - simpl. rewrite app_nil_r. split; [done|]. intros id. rewrite Hseen.
    unfold ids. simpl. rewrite elem_of_nil. tauto.
  - rewrite NotifyBatch_cons. cbv zeta.
    destruct (Notify_reliable n x Hrel) as (Hi & Hm & Hp). cbv zeta in Hi, Hm, Hp.
    set (n1 := (Notify Push Abs n x).1) in *.
    simpl firstByID. destruct (bool_decide (ID x ∈ seen)) eqn:Hx.
    + apply bool_decide_eq_true in Hx.
      assert (Hn : IsNotified n (ID x) = true) by by apply Hseen.
      rewrite Hn, app_nil_r in Hp.
      destruct (IH n1 seen Hrel) as [IH1 IH2].
      { intros id. rewrite Hm, Hseen. split; [|by left].
        by intros [?| ->]. }
      cbv zeta in IH1, IH2. rewrite IH1, Hp. split.
      * f_equal. apply list_fmap_ext. intros _ y _. f_equal.
        by apply buildToast_icon.
      * intros id. rewrite IH2. unfold ids. rewrite fmap_cons, elem_of_cons.
        split; [tauto|]. intros [?|[->|?]]; auto.
    + apply bool_decide_eq_false in Hx.
      assert (Hn : IsNotified n (ID x) = false).
      { destruct (IsNotified n (ID x)) eqn:Hn; [|done]. by apply Hseen in Hn. }
      rewrite Hn in Hp.
      destruct (IH n1 (ID x :: seen) Hrel) as [IH1 IH2].
      { intros id. rewrite Hm, Hseen, elem_of_cons. tauto. }
      cbv zeta in IH1, IH2. rewrite IH1, Hp, fmap_cons, <- app_assoc. split.
      * simpl. do 2 f_equal. apply list_fmap_ext. intros _ y _. f_equal.
        by apply buildToast_icon.
      * intros id. rewrite IH2. unfold ids.
        rewrite fmap_cons, !elem_of_cons. tauto.
Qed.
End GuardMore.

(** * The list and its file *)

Section StoreMore.
Import Scheduler.
Context {SL : Lib}.

Lemma addNotifications_nonempty s d batch :
  batch ≠ [] →
  addNotifications s d batch
  = let recent := take 50 (moved (recentNotifications s) batch
                           ++ fresh (recentNotifications s) batch
                           ++ kept (recentNotifications s) batch) in
    (withRecent s recent, (saveNotificationsWithData d recent).1).
Proof.
  intros Hne. unfold addNotifications.
  destruct batch as [|n batch]; [done|]. simpl length. cbn [Nat.eqb].
  by rewrite (updateRecent_spec _ (n :: batch)).
Qed.




Lemma take_prefix_app {A} n (l k : list A) : take n l `prefix_of` take n (l ++ k).
Proof. rewrite take_app. by apply prefix_app_r. Qed.

(** X10.  When the identifiers of a batch are all new, or all in the list
    already, the batch without its repetitions is at the front of the new
    list in its own order. *)
Theorem addNotifications_batch_order s d batch :
  batch ≠ [] →
  (∀ n, n ∈ batch → ID n ∉ ids (GetRecentNotifications s))
  ∨ (∀ n, n ∈ batch → ID n ∈ ids (GetRecentNotifications s)) →
  batchOrderAtFront batch (GetRecentNotifications (addNotifications s d batch).1).
Proof.
  intros Hne Hcase. rewrite (addNotifications_nonempty s d batch Hne). cbv zeta.
  unfold GetRecentNotifications, batchOrderAtFront in *. simpl.
  set (recent := recentNotifications s) in *.
  assert (Hsub : ∀ n, n ∈ firstByID [] batch → n ∈ batch).
  { intros n Hn. eapply elem_of_sublist; [exact Hn|apply firstByID_sublist]. }
  destruct Hcase as [Hnew|Hold].
  - assert (Hm : moved recent batch = []).
    { apply filter_none. intros n Hn. by apply Hnew, Hsub. }
    assert (Hf : fresh recent batch = firstByID [] batch).
    { apply filter_all. intros n Hn. by apply Hnew, Hsub. }
    rewrite Hm, Hf. simpl. apply take_prefix_app.
  - assert (Hm : moved recent batch = firstByID [] batch).
    { apply filter_all. intros n Hn. by apply Hold, Hsub. }
    assert (Hf : fresh recent batch = []).
    { apply filter_none. intros n Hn Hni. by apply Hni, Hold, Hsub. }
    rewrite Hm, Hf. simpl. apply take_prefix_app.
Qed.

(** X11.  A batch of at most 50 distinct identifiers is in the list in
    full after it has been added: the first notification of each
    identifier, and so every identifier of the batch. *)
Theorem addNotifications_contains s d batch :
  (length (firstByID [] batch) ≤ 50)%nat →
  let recent' := GetRecentNotifications (addNotifications s d batch).1 in
  (∀ n, n ∈ firstByID [] batch → n ∈ recent')
  ∧ (∀ n, n ∈ batch → ID n ∈ ids recent').
Proof.
  intros Hlen. cbv zeta.
  destruct (decide (batch = [])) as [->|Hne].
  { split; intros n Hn; by apply elem_of_nil in Hn. }
  rewrite (addNotifications_nonempty s d batch Hne). cbv zeta.
  unfold GetRecentNotifications. simpl.
  set (recent := recentNotifications s).
  assert (Hfirst : ∀ n, n ∈ firstByID [] batch →
            n ∈ take 50 (moved recent batch ++ fresh recent batch ++ kept recent batch)).
  { intros n Hn.
    assert (Hl : (length (moved recent batch ++ fresh recent batch)
                  ≤ length (firstByID [] batch))%nat).
    { unfold moved, fresh. generalize (firstByID [] batch). intros l.
      induction l as [|a l IH]; [done|]. rewrite !filter_cons.
      destruct (decide (ID a ∈ ids recent)).
      - rewrite decide_False by tauto. simpl. rewrite length_app in *. lia.
      - rewrite decide_True by done. rewrite length_app in *. simpl. lia. }
    rewrite app_assoc, take_app. apply elem_of_app. left.
    rewrite take_ge by lia. apply elem_of_app. unfold moved, fresh.
    rewrite !list_elem_of_filter.
    destruct (decide (ID n ∈ ids recent)); [left|right]; done. }
  split; [done|]. intros n Hn.
  assert (Hid : ID n ∈ ids (firstByID [] batch)).
  { apply firstByID_ids; [by apply list_elem_of_fmap_2|apply not_elem_of_nil]. }
  apply list_elem_of_fmap in Hid as (n' & -> & Hn').
  by apply list_elem_of_fmap_2, Hfirst.
Qed.

End StoreMore.

(** * The GitHub monitor: requests, links and notifications *)

Section GitHubMore.
Import GitHub.
Context {STR : StringsLib} {UL : UrlLib} {GL : Lib}.

Lemma convertReleaseAPIToHTML_length Do m apiURL repoFullName :
  (length (convertReleaseAPIToHTML Do m apiURL repoFullName).1 ≤ 1)%nat.
Proof.
  unfold convertReleaseAPIToHTML.
  destruct (String.eqb apiURL ""); [simpl; lia|].
  destruct (NewRequest "GET" apiURL) as [req|]; [|simpl; lia].
  destruct (Do _) as [resp|]; [|done].
  destruct (negb _); [done|]. destruct (Body resp) as [body|]; [|done].
  destruct (UnmarshalRelease body) as [rel|]; [|done].
  destruct (negb _); [done|]. by destruct (negb _).
Qed.

Lemma convertGitHubAPIToHTML_length Do m apiURL subjectType repoFullName :
  (length (convertGitHubAPIToHTML Do m apiURL subjectType repoFullName).1
   ≤ if decide (subjectType = "Release") then 1 else 0)%nat.
Proof.
  unfold convertGitHubAPIToHTML.
  destruct (String.eqb apiURL ""); [simpl; case_decide; lia|].
  destruct (String.eqb_spec subjectType "Release") as [->|Hne].
  - rewrite decide_True by done. apply convertReleaseAPIToHTML_length.
  - rewrite decide_False by done. by destruct (_ && _).
Qed.

(** X13.  The link of an item that is not a release is computed without
    a request; an API address under [/repos/] becomes the address of the
    same path on [github.com], with [/pulls/] replaced by [/pull/], and an
    address outside the API is kept. *)
Theorem convertGitHubAPIToHTML_rewrite Do m apiURL subjectType repoFullName :
  subjectType ≠ "Release" →
  (convertGitHubAPIToHTML Do m apiURL subjectType repoFullName).1 = []
  ∧ (∀ rest, apiURL = "https://api.github.com/repos/" +:+ rest →
       (convertGitHubAPIToHTML Do m apiURL subjectType repoFullName).2
       = ReplaceAll ("https://github.com/" +:+ rest) "/pulls/" "/pull/")
  ∧ (String.substring 0 22 apiURL ≠ "https://api.github.com" →
       (convertGitHubAPIToHTML Do m apiURL subjectType repoFullName).2 = apiURL).
Proof.
  intros Hne. apply String.eqb_neq in Hne. split_and!.
  - unfold convertGitHubAPIToHTML. rewrite Hne.
    destruct (String.eqb apiURL ""); [done|]. by destruct (_ && _).
  - intros rest ->. unfold convertGitHubAPIToHTML. rewrite Hne.
    set (path := "/repos/" +:+ rest).
    change ("https://api.github.com/repos/" +:+ rest)
      with ("https://api.github.com" +:+ path).
    set (u := "https://api.github.com" +:+ path).
    assert (H1 : (22 <=? String.length u)%nat
                 && String.eqb (String.substring 0 22 u) "https://api.github.com"
                 = true).
    { apply (has_prefix_app "https://api.github.com" path). }
    assert (H2 : String.substring 22 (String.length u - 22) u = path).
    { apply (substring_app_suffix "https://api.github.com" path). }
    assert (H3 : (7 <=? String.length path)%nat
                 && String.eqb (String.substring 0 7 path) "/repos/" = true).
    { apply (has_prefix_app "/repos/" rest). }
    assert (H4 : String.substring 7 (String.length path - 7) path = rest).
    { apply (substring_app_suffix "/repos/" rest). }
    assert (H0 : String.eqb u "" = false) by done.
    rewrite H0, H1, H2, H3, H4. done.
  - intros Hp. unfold convertGitHubAPIToHTML. rewrite Hne.
    destruct (String.eqb_spec apiURL "") as [->|_]; [done|].
    apply String.eqb_neq in Hp. rewrite Hp. by rewrite andb_false_r.
Qed.

Lemma convertItem_step Do m acc it :
  ∃ n reqs,
    convertItem Do m acc it = (acc.1 ++ reqs, acc.2 ++ [n])
    ∧ madeFor n it
    ∧ (length reqs ≤ if decide (SubjectType it = "Release") then 1 else 0)%nat.
Proof.
  pose proof (convertGitHubAPIToHTML_length Do m (SubjectURL it) (SubjectType it)
                (RepositoryFullName it)) as Hc.
  assert (Hempty : SubjectURL it = "" →
            convertGitHubAPIToHTML Do m (SubjectURL it) (SubjectType it)
              (RepositoryFullName it) = ([], "")).
  { by intros ->. }
  unfold convertItem.
  destruct (convertGitHubAPIToHTML Do m (SubjectURL it) (SubjectType it)
              (RepositoryFullName it)) as [reqs link].
  eexists _, reqs. split; [done|]. split; [|done].
  unfold madeFor. simpl. split_and!; try done.
  - apply (truncateString_bound _ 100).
  - intros Hu. specialize (Hempty Hu). by injection Hempty as -> ->.
Qed.

Lemma convertItem_fold Do m items : ∀ acc,
  let r := foldl (convertItem Do m) acc items in
  ∃ added,
    r.2 = acc.2 ++ added
    ∧ Forall2 madeFor added items
    ∧ (length r.1
       ≤ length acc.1 + length (filter (λ it, SubjectType it = "Release") items))%nat.
Proof.
  induction items as [|it items IH]; intros acc; cbn [foldl].
  - exists []. rewrite app_nil_r. split_and!; [done|constructor|simpl; lia].
  - destruct (convertItem_step Do m acc it) as (n & reqs & Heq & Hn & Hreqs).
    rewrite Heq. cbv zeta.
    destruct (IH (acc.1 ++ reqs, acc.2 ++ [n])) as (added & Hr & Hall & Hlen).
    cbv zeta in Hr, Hlen. simpl in Hr, Hlen.
    exists (n :: added). split_and!.
    + rewrite Hr, <- app_assoc. done.
    + by constructor.
    + rewrite filter_cons. rewrite length_app in Hlen.
      destruct (decide (SubjectType it = "Release")); simpl; lia.
Qed.

(** X14.  A [200] answer that decodes gives one notification for each
    item, in the order of the answer: its identifier is [github_] and the
    identifier of the item, its content has at most 103 bytes, and an item
    without subject address gets the item's own link.  Beside the listing
    request there is at most one request for each release among the
    items. *)
Theorem FetchNotificationsSince_result Do m since req resp body items :
  token m ≠ "" → buildRequest m since = Ok req → Do req = Ok resp →
  StatusCode resp = StatusOK → Body resp = Ok body →
  UnmarshalItems body = Ok items →
  ∃ m' reqs result,
    FetchNotificationsSince Do m since = (m', req :: reqs, Ok result)
    ∧ Forall2 madeFor result items
    ∧ (length reqs
       ≤ length (filter (λ it, SubjectType it = "Release") items))%nat.
Proof.
  intros Htok Hreq Hdo Hst Hb Hu. unfold FetchNotificationsSince.
  apply String.eqb_neq in Htok. rewrite Htok, Hreq, Hdo.
  unfold handleResponse. rewrite Hst, Hb, Hu. simpl.
  destruct (convertItem_fold Do (updateLastModified m resp) items ([], []))
    as (added & Hr & Hall & Hlen).
  destruct (foldl _ _ items) as [reqs result]. simpl in Hr, Hlen. subst added.
  by exists (updateLastModified m resp), reqs, result.
Qed.

Lemma buildRequest_headers m req :
  buildRequest m 0 = Ok req →
  Method req = "GET"
  ∧ ReqHeader req
    = [("Authorization", "token " +:+ token m);
       ("Accept", "application/vnd.github.v3+json")]
      ++ (if IsZero (lastModified m) then []
          else [("If-Modified-Since", FormatHTTP (lastModified m))]).
Proof.
  unfold buildRequest. change (IsZero 0) with true. cbn [negb].
  destruct (negb (validURL _)); [done|].
  unfold NewRequest. destruct (validURL _); [|done].
  intros [= <-]. by destruct (IsZero (lastModified m)).
Qed.

(** X15.  The request of a poll: an explicit [since] takes the place of
    the cursor, and the header [If-Modified-Since] is sent, after the two
    headers that every request carries, exactly when the instant used is
    not zero. *)
Theorem buildRequest_cursor m since :
  (IsZero since = false →
     buildRequest m since = buildRequest (mkMonitor (baseURL m) (token m) since) 0)
  ∧ (∀ req, buildRequest m 0 = Ok req →
       Method req = "GET"
       ∧ ReqHeader req
         = [("Authorization", "token " +:+ token m);
            ("Accept", "application/vnd.github.v3+json")]
           ++ (if IsZero (lastModified m) then []
               else [("If-Modified-Since", FormatHTTP (lastModified m))])).
Proof.
  split.
  - intros Hz. unfold buildRequest. cbn [baseURL token lastModified].
    rewrite Hz. change (IsZero 0) with true. cbn [negb]. by rewrite Hz.
  - apply buildRequest_headers.
Qed.
End GitHubMore.

(** * The ld246 monitor: errors, repeated answers and the state files *)

Section Ld246More.
Import Ld246.
Context {STR : StringsLib} {UL : UrlLib} {LL : Lib}.

Lemma prepare_ext m m' req : token m' = token m → prepare m' req = prepare m req.
Proof. intros Ht. unfold prepare. by rewrite Ht. Qed.

Lemma httpGet_ext Do m m' url :
  token m' = token m → httpGet Do m' url = httpGet Do m url.
Proof.
  intros Ht. unfold httpGet. destruct (NewRequest "GET" url) as [req|]; [|done].
  by rewrite (prepare_ext m m' req Ht).
Qed.

Lemma httpGet_length Do m url : (length (httpGet Do m url).1 ≤ 1)%nat.
Proof.
  unfold httpGet. destruct (NewRequest "GET" url) as [req|]; [|simpl; lia].
  destruct (Do _) as [resp|]; [|done].
  destruct (checkStatus resp); [done|]. by destruct (Body resp).
Qed.





Lemma reconcileStep_shape m st it :
  reconcileStep m st it = st
  ∨ ∃ n, reconcileStep m st it
         = mkReconcile (newNotifications st ++ [n])
                       (<[OID it := stateOf it]> (updatedArticles st))
         ∧ madeForArticle m n it.
Proof.
  unfold reconcileStep, madeForArticle.
  destruct (seenArticles m !! OID it) as [seenState|].
  - destruct (_ || _); simpl; [|by left]. right. eexists. split; [done|].
    simpl. split_and!; try done. by right.
  - simpl. right. eexists. split; [done|]. simpl. split_and!; try done. by left.
Qed.

Lemma reconcile_shape m articles : ∀ st,
  let st' := foldl (reconcileStep m) st articles in
  ∃ added,
    newNotifications st' = newNotifications st ++ added
    ∧ (length added ≤ length articles)%nat
    ∧ Forall (λ n, ∃ it, it ∈ articles ∧ madeForArticle m n it) added.
Proof.
  induction articles as [|it articles IH]; intros st; simpl.
  - exists []. by rewrite app_nil_r.
  - destruct (IH (reconcileStep m st it)) as (added & Hn & Hlen & Hall).
    assert (Hall' : Forall (λ n, ∃ it0, it0 ∈ it :: articles
                                        ∧ madeForArticle m n it0) added).
    { eapply Forall_impl; [exact Hall|]. intros n (it0 & Hin & H).
      exists it0. split; [by apply list_elem_of_further|exact H]. }
    destruct (reconcileStep_shape m st it) as [Heq|(n & Heq & Hid)].
    + rewrite Heq in Hn |- *. exists added. split_and!; [done|simpl; lia|done].
    + rewrite Heq in Hn |- *. simpl in Hn. exists (n :: added). split_and!.
      * by rewrite Hn, <- app_assoc.
      * simpl. lia.
      * constructor; [|done]. exists it. split; [apply list_elem_of_here|done].
Qed.

(** X17.  A successful [FetchRecentReplies] sends at most one request and
    returns at most one notification for each listed item; each is named
    after an item of the listing, as new or as updated, and carries the
    link and the time of that item. *)
Theorem FetchRecentReplies_notifications Do m d m' d' reqs ns :
  FetchRecentReplies Do m d = (m', d', reqs, Ok ns) →
  ∃ body apiResp,
    httpGet Do m (baseURL m +:+ "/api/v2/articles/latest/reply?p=1")
    = (reqs, Ok body)
    ∧ UnmarshalArticles body = Ok apiResp
    ∧ (length ns ≤ length (Articles apiResp))%nat
    ∧ (length reqs ≤ 1)%nat
    ∧ ∀ n, n ∈ ns → ∃ it, it ∈ Articles apiResp ∧ madeForArticle m n it.
Proof.
  intros Hf. destruct (FetchRecentReplies_Ok _ _ _ _ _ _ _ Hf)
    as (body & apiResp & Hg & Hu & _ & H).
  cbv zeta in H. destruct H as (Hns & _).
  exists body, apiResp. split; [done|]. split; [done|].
  destruct (reconcile_shape m (Articles apiResp) (mkReconcile [] ∅))
    as (added & Hn & Hlen & Hall).
  simpl in Hn. rewrite <- Hns in Hn. subst added. split; [done|]. split.
  - pose proof (httpGet_length Do m
      (baseURL m +:+ "/api/v2/articles/latest/reply?p=1")) as Hl.
    by rewrite Hg in Hl.
  - intros n Hin. by apply (proj1 (Forall_forall _ _) Hall).
Qed.

Lemma NoDup_fmap_eq {A B} (f : A → B) (l : list A) x y :
  NoDup (f <$> l) → x ∈ l → y ∈ l → f x = f y → x = y.
Proof.
  induction l as [|a l IH]; [by intros _ ?%elem_of_nil|].
  rewrite fmap_cons, NoDup_cons, !elem_of_cons.
  intros [Hni Hnd] [->|Hx] [->|Hy] Hf; try done.
  - exfalso. apply Hni. rewrite Hf. by apply list_elem_of_fmap_2.
  - exfalso. apply Hni. rewrite <- Hf. by apply list_elem_of_fmap_2.
  - by apply IH.
Qed.

Lemma reconcile_all_unchanged m articles st :
  (∀ it, it ∈ articles → seenArticles m !! OID it = Some (stateOf it)) →
  foldl (reconcileStep m) st articles = st.
Proof.
  revert st. induction articles as [|it articles IH]; intros st Hall; [done|].
  simpl. rewrite (reconcileStep_unchanged m st it (stateOf it)).
  - apply IH. intros it' Hin. apply Hall. by apply list_elem_of_further.
  - apply Hall, list_elem_of_here.
  - simpl. lia.
  - simpl. lia.
Qed.

Lemma rewriteSeen_NoDup seen updated articles it :
  NoDup (OID <$> articles) → it ∈ articles →
  (∀ id s, updated !! id = Some s →
     ∃ it', it' ∈ articles ∧ OID it' = id ∧ s = stateOf it') →
  rewriteSeen seen updated articles !! OID it = Some (stateOf it).
Proof.
  intros Hnd Hin Hupd. apply rewriteSeen_lookup. split.
  { by apply list_elem_of_fmap_2. }
  destruct (updated !! OID it) as [s|] eqn:Hu.
  - left. destruct (Hupd _ _ Hu) as (it' & Hin' & Hid & ->).
    by rewrite (NoDup_fmap_eq OID articles it' it Hnd Hin' Hin Hid).
  - right. split; [done|].
    destruct (last_filter_is_Some (λ it0, OID it0 = OID it) articles it Hin eq_refl)
      as [it' Hlast].
    exists it'. split; [done|].
    apply last_filter_Some in Hlast as [Hin' Hid].
    by rewrite (NoDup_fmap_eq OID articles it' it Hnd Hin' Hin Hid).
Qed.

Lemma rewriteSeen_idem seen articles :
  (∀ it, it ∈ articles → seen !! OID it = Some (stateOf it)) →
  (∀ id, is_Some (seen !! id) → id ∈ OID <$> articles) →
  rewriteSeen seen ∅ articles = seen.
Proof.
  intros Hall Hdom. apply map_eq. intros id. apply option_eq. intros s.
  rewrite rewriteSeen_lookup. split.
  - intros [Hin [Hl|(_ & it & Hlast & ->)]]; [by rewrite lookup_empty in Hl|].
    apply last_filter_Some in Hlast as [Hin' <-]. by apply Hall.
  - intros Hs. assert (Hin : id ∈ OID <$> articles) by (by apply Hdom).
    split; [done|]. right. split; [apply lookup_empty|].
    apply list_elem_of_fmap in Hin as (it & -> & Hin).
    destruct (last_filter_is_Some (λ it0, OID it0 = OID it) articles it Hin eq_refl)
      as [it' Hlast].
    exists it'. split; [done|].
    apply last_filter_Some in Hlast as [Hin' Hid].
    apply Hall in Hin'. rewrite Hid in Hin'. congruence.
Qed.

(** X18.  When the same listing, with distinct items, is answered twice,
    the second fetch returns no notification and keeps the state. *)
Theorem FetchRecentReplies_repeat_silent Do m d reqs body apiResp :
  httpGet Do m (baseURL m +:+ "/api/v2/articles/latest/reply?p=1") = (reqs, Ok body) →
  UnmarshalArticles body = Ok apiResp → aCode apiResp = 0 →
  NoDup (OID <$> Articles apiResp) →
  let '(m1, d1, _, _) := FetchRecentReplies Do m d in
  let '(m2, _, _, r2) := FetchRecentReplies Do m1 d1 in
  r2 = Ok [] ∧ seenArticles m2 = seenArticles m1.
Proof.
  intros Hg Hu Hc Hnd.
  rewrite (FetchRecentReplies_answer Do m d reqs body apiResp Hg Hu Hc).
  set (st := foldl (reconcileStep m) (mkReconcile [] ∅) (Articles apiResp)).
  set (m1 := withSeenArticles m _).
  assert (Hseen : ∀ it, it ∈ Articles apiResp →
                        seenArticles m1 !! OID it = Some (stateOf it)).
  { intros it Hin. apply rewriteSeen_NoDup; [done|done|].
    intros id s Hs. apply (reconcile_updated m) in Hs as [Hs|Hs]; [done|done]. }
  assert (Hg1 : httpGet Do m1 (baseURL m1 +:+ "/api/v2/articles/latest/reply?p=1")
                = (reqs, Ok body)).
  { rewrite <- Hg. by apply httpGet_ext. }
  rewrite (FetchRecentReplies_answer Do m1 _ reqs body apiResp Hg1 Hu Hc).
  rewrite (reconcile_all_unchanged m1 _ _ Hseen). simpl. split; [done|].
  apply rewriteSeen_idem; [exact Hseen|].
  intros id [s Hs]. by apply rewriteSeen_lookup in Hs as [Hin _].
Qed.


Lemma foldl_insert_true_lookup (l : list string) : ∀ (m : gmap string bool) k,
  foldl (λ seen id, <[id := true]> seen) m l !! k
  = if decide (k ∈ l) then Some true else m !! k.
Proof.
  induction l as [|id l IH]; intros m k; cbn [foldl].
  - rewrite decide_False; [done|]. apply not_elem_of_nil.
  - rewrite IH. destruct (decide (k ∈ l)) as [Hin|Hni].
    + rewrite decide_True; [done|]. by apply list_elem_of_further.
    + destruct (decide (k = id)) as [->|Hne].
      * rewrite decide_True by apply list_elem_of_here. apply lookup_insert_eq.
      * rewrite decide_False.
        -- by apply lookup_insert_ne.
        -- rewrite elem_of_cons. intros [?|?]; done.
Qed.









Lemma elem_of_keys (m : gmap string bool) k :
  k ∈ (map_to_list m).*1 ↔ is_Some (m !! k).
Proof.
  rewrite list_elem_of_fmap. split.
  - intros ([k' v] & -> & Hin). apply elem_of_map_to_list in Hin. by exists v.
  - intros [v Hv]. exists (k, v). split; [done|]. by apply elem_of_map_to_list.
Qed.

(** X22.  On a disk that works and with a codec that reads back what it
    wrote, the state saved by [saveSeenArticles] is the state that
    [loadSeenArticles] loads, and the keys saved by [saveSeenMessages] are
    the keys that [loadSeenMessages] marks as seen. *)
Theorem state_files_roundtrip m m0 d :
  healthy d →
  (∀ data,
     MarshalArticleStates (seenArticles m) = Ok data →
     UnmarshalArticleStates data = Ok (seenArticles m) →
     stateFilePath m0 = stateFilePath m →
     seenArticles (loadSeenArticles m0 (saveSeenArticles m d)) = seenArticles m)
  ∧ (∀ data,
       MarshalMessageIDs (map_to_list (seenMessages m)).*1 = Ok data →
       UnmarshalMessageIDs data = Ok (map_to_list (seenMessages m)).*1 →
       messagesStateFilePath m0 = messagesStateFilePath m →
       ∀ k, mapGet (seenMessages (loadSeenMessages m0 (saveSeenMessages m d))) k
            = true
            ↔ is_Some (seenMessages m !! k)).
Proof.
  intros (Hmk & Hw & Hr). split.
  - intros data Hm Hu Hp.
    unfold saveSeenArticles, os.MkdirAll, os.WriteFile. rewrite Hm, Hmk. simpl.
    rewrite Hw. simpl. unfold loadSeenArticles. rewrite Hp.
    rewrite (Stat_file _ (stateFilePath m) data) by (simpl; apply lookup_insert_eq).
    simpl. unfold os.ReadFile. simpl. rewrite Hr, lookup_insert_eq, Hu. done.
  - intros data Hm Hu Hp k.
    unfold saveSeenMessages, os.MkdirAll, os.WriteFile. rewrite Hm, Hmk. simpl.
    rewrite Hw. simpl. unfold loadSeenMessages. rewrite Hp.
    rewrite (Stat_file _ (messagesStateFilePath m) data)
      by (simpl; apply lookup_insert_eq).
    simpl. unfold os.ReadFile. simpl. rewrite Hr, lookup_insert_eq, Hu. simpl.
    unfold mapGet. rewrite foldl_insert_true_lookup, lookup_empty.
    destruct (decide _) as [Hin|Hni]; simpl.
    + split; [|done]. intros _. by apply elem_of_keys.
    + split; [done|]. intros Hs. by apply elem_of_keys in Hs.
Qed.
End Ld246More.

(** * The checks, the change of configuration and the application *)

Section PollingMore.
Import Scheduler.
Context {STR : StringsLib} {UL : UrlLib} {GL : GitHub.Lib} {LL : Ld246.Lib}
        {SL : Lib}.
Variable Push : nat → Notifier.Toast → option string.
Variable Abs : string → Result string.


Lemma deliverAndAdd_notifier s d batch :
  notifier (deliverAndAdd Push Abs s d batch).1
  = (Notifier.NotifyBatch Push Abs (notifier s) batch).1.
Proof.
  unfold deliverAndAdd. destruct batch as [|x batch]; [done|].
  cbn [length Nat.ltb Nat.leb].
  by rewrite (proj1 (addNotifications_others _ _ _)).
Qed.

(** X23.  With a sink that does not fail, a delivered batch is marked in
    full, and delivering it again makes no call of the sink. *)
Theorem deliverAndAdd_again s d batch :
  (∀ k t, Push k t = None) →
  let '(s1, d1) := deliverAndAdd Push Abs s d batch in
  (∀ x, x ∈ batch → Notifier.IsNotified (notifier s1) (ID x) = true)
  ∧ notifier (deliverAndAdd Push Abs s1 d1 batch).1 = notifier s1.
Proof.
  intros Hrel.
  pose proof (deliverAndAdd_notifier s d batch) as Hn.
  destruct (deliverAndAdd Push Abs s d batch) as [s1 d1]. simpl in Hn.
  assert (Hall : ∀ x, x ∈ batch → Notifier.IsNotified (notifier s1) (ID x) = true).
  { intros x Hx. rewrite Hn. by apply NotifyBatch_marks_all. }
  split; [exact Hall|].
  rewrite deliverAndAdd_notifier.
  by rewrite (NotifyBatch_noop Push Abs batch (notifier s1) Hall).
Qed.


Lemma getFilePath_files d name : files (Ld246.getFilePath d name).1 = files d.
Proof.
  unfold Ld246.getFilePath. destruct (os.Stat d _); [done|].
  destruct (UserHomeDir d); [|done]. unfold os.MkdirAll.
  by destruct (mkdirFails d).
Qed.

Lemma loadSeenArticles_fields m d :
  Ld246.token (Ld246.loadSeenArticles m d) = Ld246.token m
  ∧ Ld246.seenMessages (Ld246.loadSeenArticles m d) = Ld246.seenMessages m
  ∧ (files d !! Ld246.stateFilePath m = None →
       Ld246.seenArticles (Ld246.loadSeenArticles m d) = ∅).
Proof.
  unfold Ld246.loadSeenArticles, os.ReadFile.
  destruct (negb _); [done|]. destruct (readFails d); [done|].
  destruct (files d !! _) as [data|]; [|done].
  by destruct (Ld246.UnmarshalArticleStates data).
Qed.

Lemma loadSeenMessages_fields m d :
  Ld246.token (Ld246.loadSeenMessages m d) = Ld246.token m
  ∧ Ld246.seenArticles (Ld246.loadSeenMessages m d) = Ld246.seenArticles m
  ∧ (files d !! Ld246.messagesStateFilePath m = None →
       Ld246.seenMessages (Ld246.loadSeenMessages m d) = ∅).
Proof.
  unfold Ld246.loadSeenMessages, os.ReadFile.
  destruct (negb _); [done|]. destruct (readFails d); [done|].
  destruct (files d !! _) as [data|]; [|done].
  by destruct (Ld246.UnmarshalMessageIDs data).
Qed.

Lemma NewLd246Monitor_fields token d :
  let '(m, d') := Ld246.NewLd246Monitor token d in
  Ld246.token m = token ∧ files d' = files d
  ∧ (files d = ∅ → Ld246.seenArticles m = ∅ ∧ Ld246.seenMessages m = ∅).
Proof.
  unfold Ld246.NewLd246Monitor, Ld246.getStateFilePath,
    Ld246.getMessagesStateFilePath.
  pose proof (getFilePath_files d "ld246_seen_articles.json") as H1.
  destruct (Ld246.getFilePath d "ld246_seen_articles.json") as [d1 p1].
  pose proof (getFilePath_files d1 "ld246_seen_messages.json") as H2.
  destruct (Ld246.getFilePath d1 "ld246_seen_messages.json") as [d2 p2].
  simpl in H1, H2.
  set (m0 := Ld246.mkMonitor _ _ _ _ _ _).
  destruct (loadSeenArticles_fields m0 d2) as (Ha1 & Ha2 & Ha3).
  destruct (loadSeenMessages_fields (Ld246.loadSeenArticles m0 d2) d2)
    as (Hb1 & Hb2 & Hb3).
  split_and!.
  - by rewrite Hb1, Ha1.
  - by rewrite H2, H1.
  - intros He. assert (He2 : files d2 = ∅) by by rewrite H2, H1.
    split.
    + rewrite Hb2. apply Ha3. by rewrite He2.
    + apply Hb3. by rewrite He2.
Qed.

Lemma UpdateConfig_fields s d ld246Token githubToken :
  let s' := (UpdateConfig s d ld246Token githubToken).1 in
  notifier s' = notifier s
  ∧ GetRecentNotifications s' = GetRecentNotifications s
  ∧ githubMonitor s' = GitHub.NewGitHubMonitor githubToken
  ∧ Ld246.token (ld246Monitor s') = ld246Token
  ∧ files (UpdateConfig s d ld246Token githubToken).2 = files d.
Proof.
  cbv zeta. unfold UpdateConfig.
  pose proof (NewLd246Monitor_fields ld246Token d) as Hm.
  destruct (Ld246.NewLd246Monitor ld246Token d) as [m d']. simpl.
  by destruct Hm as (Ht & Hf & _).
Qed.


End PollingMore.

Section AppFacts.
Context {STR : StringsLib} {UL : UrlLib} {GL : GitHub.Lib} {LL : Ld246.Lib}
        {SL : Scheduler.Lib} {Viper : Type} {VL : Config.Lib Viper}.

(** X27.  The configuration of a new application has passed validation:
    it was loaded, or it is the default one. *)
Theorem NewApp_config_valid (st : Config.State Viper) icon d :
  Config.validateConfig (App.GetConfig (App.NewApp st icon d).1.1) = None.
Proof.
  unfold App.NewApp. pose proof (Load_cases st d) as Hl.
  destruct (Config.Load st d) as [[st' d'] [cfg|e]].
  - destruct Hl as [_ Hv]. by destruct (Scheduler.NewScheduler _ _ _ _).
  - by destruct (Scheduler.NewScheduler _ _ _ _).
Qed.

(** X28.  [SaveConfig] that returns an error has changed neither the
    configuration nor the scheduler of the application, and a
    configuration that does not validate is refused before anything is
    written; a successful one installs a configuration that validates,
    keeps the list and the record of what was delivered, and gives the
    tokens to new monitors, the GitHub one without a cursor. *)
Theorem SaveConfig_outcome (a : App.App) (st : Config.State Viper) d cfg :
  let '(a', st', d', err) := App.SaveConfig a st d cfg in
  (err ≠ None → a' = a)
  ∧ (Config.validateConfig cfg ≠ None → err ≠ None ∧ st' = st ∧ d' = d)
  ∧ (err = None →
       App.GetConfig a' = cfg ∧ Config.validateConfig cfg = None
       ∧ Config.Get st' = cfg
       ∧ App.GetRecentNotifications a' = App.GetRecentNotifications a
       ∧ Scheduler.notifier (App.scheduler a') = Scheduler.notifier (App.scheduler a)
       ∧ Scheduler.githubMonitor (App.scheduler a')
         = GitHub.NewGitHubMonitor (Config.GitHubToken (Config.GitHub cfg))
       ∧ Ld246.token (Scheduler.ld246Monitor (App.scheduler a'))
         = Config.Ld246Token (Config.Ld246 cfg)).
Proof.
  unfold App.SaveConfig. pose proof (Save_cases st d cfg) as Hs.
  destruct (Config.Save st d cfg) as [[st' d'] [err|]].
  - destruct Hs as [_ Hs]. split_and!; [done| |done].
    intros Hv. by destruct (Hs Hv) as [-> ->].
  - destruct Hs as [Hg Hv].
    pose proof (UpdateConfig_fields (App.scheduler a) d'
                  (Config.Ld246Token (Config.Ld246 cfg))
                  (Config.GitHubToken (Config.GitHub cfg))) as Hu.
    cbv zeta in Hu.
    destruct (Scheduler.UpdateConfig _ _ _ _) as [sched d''].
    simpl in Hu. destruct Hu as (Hn & Hr & Hgt & Hlt & _).
    split_and!; [done|done|]. intros _. unfold App.GetRecentNotifications. simpl.
    split_and!; try done. unfold Config.Get. by rewrite Hg.
Qed.
End AppFacts.

(** * The further properties on the sample data *)



Lemma removeANSICodes_spec_witness :
  let coloured :=
    "INFO " +:+ String Logger.ESC
                  (String "["%char ("0;36" +:+ String "m"%char "ready")) in
  hasByte Logger.ESC "INFO " = false ∧ hasByte "m"%char "0;36" = false
  ∧ Logger.removeANSICodes coloured = "INFO ready".
Proof.
  intros coloured.
  assert (H1 : hasByte Logger.ESC "INFO " = false) by reflexivity.
  assert (H2 : hasByte "m"%char "0;36" = false) by reflexivity.
  split; [exact H1|]. split; [exact H2|].
  destruct (removeANSICodes_spec coloured) as (_ & _ & Hseq & _).
  etrans; [apply (Hseq "INFO " "0;36" "ready" eq_refl H1 H2)|]. reflexivity.
Defined.

Lemma validateConfig_spec_witness :
  10 ≤ 30 ∧ "info" ∈ ["debug"; "info"; "warn"; "error"]
  ∧ Config.validateConfig (Cases.config 30 "info") = None.
Proof.
  assert (H : 10 ≤ 30 ∧ "info" ∈ ["debug"; "info"; "warn"; "error"]).
  { split; [lia|]. apply elem_of_cons. right. apply elem_of_cons. by left. }
  split; [apply H|]. split; [apply H|].
  exact (proj2 (validateConfig_spec (Cases.config 30 "info")) H).
Defined.

Lemma Config_valid_invariant_witness :
  validGlobal Cases.configState
  ∧ Config.validateConfig
      (Config.Get (Config.Save (VL := Cases.viperLib) Cases.configState
                     Sample.disk (Cases.config 30 "info")).1.1) = None.
Proof.
  assert (H : validGlobal Cases.configState) by (intros c Hc; discriminate).
  split; [exact H|].
  destruct (Config_valid_invariant (VL := Cases.viperLib)) as (_ & HSave & HGet).
  apply HGet, HSave, H.
Defined.

Lemma NotifyBatch_once_in_order_witness :
  let n0 := Notifier.NewWindowsNotifier "" in
  (∀ id, Notifier.IsNotified n0 id = true ↔ id ∈ [])
  ∧ (Notifier.pushed
       (Notifier.NotifyBatch Sample.reliableSink Sample.abs n0
          [Sample.nB; Sample.nA; Sample.nB']).1).*1 = ["b"; "a"].
Proof.
  assert (H : ∀ id, Notifier.IsNotified (Notifier.NewWindowsNotifier "") id = true
                    ↔ id ∈ []).
  { intros id. unfold Notifier.IsNotified. simpl. rewrite mapGet_empty, elem_of_nil.
    split; [done|tauto]. }
  split; [exact H|].
  destruct (NotifyBatch_once_in_order Sample.reliableSink Sample.abs
              [Sample.nB; Sample.nA; Sample.nB'] (Notifier.NewWindowsNotifier "") []
              (λ _ _, eq_refl) H) as [Hp _].
  cbv zeta in Hp. rewrite Hp. reflexivity.
Defined.



Lemma addNotifications_batch_order_witness :
  [Sample.nA; Sample.nB] ≠ []
  ∧ batchOrderAtFront [Sample.nA; Sample.nB]
      (Scheduler.GetRecentNotifications
         (Scheduler.addNotifications (SL := Sample.schedulerLib) Sample.scheduler
            Sample.disk [Sample.nA; Sample.nB]).1).
Proof.
  assert (H1 : [Sample.nA; Sample.nB] ≠ []) by done.
  split; [exact H1|].
  apply (addNotifications_batch_order (SL := Sample.schedulerLib) Sample.scheduler
           Sample.disk [Sample.nA; Sample.nB] H1).
  left. intros n _. apply not_elem_of_nil.
Defined.

Lemma addNotifications_contains_witness :
  (length (firstByID [] [Sample.nA; Sample.nB; Sample.nB']) ≤ 50)%nat
  ∧ "b" ∈ ids (Scheduler.GetRecentNotifications
                 (Scheduler.addNotifications (SL := Sample.schedulerLib)
                    Sample.scheduler Sample.disk
                    [Sample.nA; Sample.nB; Sample.nB']).1).
Proof.
  assert (H : (length (firstByID [] [Sample.nA; Sample.nB; Sample.nB']) ≤ 50)%nat)
    by (vm_compute; lia).
  split; [exact H|].
  apply (proj2 (addNotifications_contains (SL := Sample.schedulerLib)
                  Sample.scheduler Sample.disk
                  [Sample.nA; Sample.nB; Sample.nB'] H) Sample.nB').
  apply elem_of_cons. right. apply elem_of_cons. right. apply list_elem_of_here.
Defined.

Lemma convertGitHubAPIToHTML_rewrite_witness :
  "Issue" ≠ "Release"
  ∧ (GitHub.convertGitHubAPIToHTML (STR := Sample.stringsLib) (UL := Sample.urlLib)
       (GL := Sample.githubLib) Sample.remote (GitHub.NewGitHubMonitor "tok")
       "https://api.github.com/repos/o/r/issues/7" "Issue" "o/r").2
    = "https://github.com/o/r/issues/7".
Proof.
  assert (H : "Issue" ≠ "Release") by done.
  split; [exact H|].
  destruct (convertGitHubAPIToHTML_rewrite (STR := Sample.stringsLib)
              (UL := Sample.urlLib) (GL := Sample.githubLib) Sample.remote
              (GitHub.NewGitHubMonitor "tok")
              "https://api.github.com/repos/o/r/issues/7" "Issue" "o/r" H)
    as (_ & Hrepos & _).
  exact (Hrepos "o/r/issues/7" eq_refl).
Defined.

Lemma FetchNotificationsSince_result_witness :
  let m := GitHub.NewGitHubMonitor "tok" in
  GitHub.token m ≠ ""
  ∧ ∃ m' req reqs result,
      GitHub.FetchNotificationsSince (STR := Sample.stringsLib)
        (UL := Sample.urlLib) (GL := Cases.githubLib) (Sample.serve "items") m 0
      = (m', req :: reqs, Ok result)
      ∧ Forall2 madeFor result [Cases.issue; Cases.released]
      ∧ (length reqs ≤ 1)%nat.
Proof.
  intros m. assert (H : GitHub.token m ≠ "") by done.
  split; [exact H|].
  destruct (FetchNotificationsSince_result (STR := Sample.stringsLib)
              (UL := Sample.urlLib) (GL := Cases.githubLib) (Sample.serve "items")
              m 0 _ _ "items" [Cases.issue; Cases.released]
              H eq_refl eq_refl eq_refl eq_refl eq_refl)
    as (m' & reqs & result & Heq & Hall & Hlen).
  by eexists m', _, reqs, result.
Defined.

Lemma buildRequest_cursor_witness :
  let m := GitHub.NewGitHubMonitor "tok" in
  GitHub.IsZero 5 = false
  ∧ GitHub.buildRequest (UL := Sample.urlLib) (GL := Sample.githubLib) m 5
    = GitHub.buildRequest (UL := Sample.urlLib) (GL := Sample.githubLib)
        (GitHub.mkMonitor "https://api.github.com" "tok" 5) 0.
Proof.
  intros m. split; [reflexivity|].
  exact (proj1 (buildRequest_cursor (UL := Sample.urlLib) (GL := Sample.githubLib)
                  m 5) eq_refl).
Defined.

Lemma FetchNotificationsSince_not_modified_witness :
  let m := GitHub.NewGitHubMonitor "tok" in
  GitHub.token m ≠ ""
  ∧ ∃ req,
      GitHub.FetchNotificationsSince (STR := Sample.stringsLib)
        (UL := Sample.urlLib) (GL := Sample.githubLib) Cases.notModified m 0
      = (GitHub.mkMonitor "https://api.github.com" "tok" 1000, [req], Ok []).
Proof.
  intros m. split; [done|]. eexists.
  eapply (FetchNotificationsSince_not_modified (STR := Sample.stringsLib)
            (UL := Sample.urlLib) (GL := Sample.githubLib) Cases.notModified m 0
            _ _ "Mon, 01 Jan 2024 00:00:00 GMT" 1000);
    [done | reflexivity | reflexivity | reflexivity | reflexivity | done
    | reflexivity].
Defined.

Lemma FetchNotificationsSince_error_cursor_witness :
  let m := GitHub.mkMonitor "https://api.github.com" "tok" 5 in
  let r := GitHub.FetchNotificationsSince (STR := Sample.stringsLib)
             (UL := Sample.urlLib) (GL := Sample.githubLib) Cases.offline m 0 in
  r.2 = Err "请求失败" ∧ "请求失败" ≠ "解析响应失败" ∧ r.1.1 = m.
Proof.
  intros m r. assert (H : "请求失败" ≠ "解析响应失败") by done.
  split; [reflexivity|]. split; [exact H|].
  exact (FetchNotificationsSince_error_cursor (STR := Sample.stringsLib)
           (UL := Sample.urlLib) (GL := Sample.githubLib) Cases.offline m 0
           r.1.1 r.1.2 "请求失败" eq_refl H).
Defined.


Lemma FetchRecentReplies_notifications_witness :
  let r := Ld246.FetchRecentReplies (STR := Sample.stringsLib)
             (UL := Sample.urlLib) (LL := Sample.ld246Lib)
             (Sample.serve "X:200:2") Sample.ld246 Sample.disk in
  isErr r.2 = false ∧ (length r.1.2 ≤ 1)%nat.
Proof.
  intros r. split; [done|].
  destruct r as [[[m' d'] reqs] [ns|e]] eqn:Er; [|done].
  destruct (FetchRecentReplies_notifications (STR := Sample.stringsLib)
              (UL := Sample.urlLib) (LL := Sample.ld246Lib)
              (Sample.serve "X:200:2") Sample.ld246 Sample.disk m' d' reqs ns Er)
    as (body & apiResp & _ & _ & _ & Hl & _).
  exact Hl.
Defined.

Lemma FetchRecentReplies_repeat_silent_witness :
  let fetch := Ld246.FetchRecentReplies (STR := Sample.stringsLib)
                 (UL := Sample.urlLib) (LL := Sample.ld246Lib)
                 (Sample.serve "X:200:2") in
  NoDup ["X"]
  ∧ let '(m1, d1, _, _) := fetch Sample.ld246 Sample.disk in
    (fetch m1 d1).2 = Ok [].
Proof.
  intros fetch. assert (H : NoDup ["X"]) by apply NoDup_singleton.
  split; [exact H|].
  pose proof (FetchRecentReplies_repeat_silent (STR := Sample.stringsLib)
                (UL := Sample.urlLib) (LL := Sample.ld246Lib)
                (Sample.serve "X:200:2") Sample.ld246 Sample.disk
                _ "X:200:2" _ eq_refl eq_refl eq_refl H) as Hs.
  subst fetch.
  destruct (Ld246.FetchRecentReplies _ Sample.ld246 Sample.disk)
    as [[[m1 d1] reqs1] r1].
  destruct (Ld246.FetchRecentReplies _ m1 d1) as [[[m2 d2] reqs2] r2].
  exact (proj1 Hs).
Defined.




Lemma state_files_roundtrip_witness :
  healthy Sample.disk
  ∧ Ld246.seenArticles
      (Ld246.loadSeenArticles (LL := Cases.ld246Lib) Sample.ld246
         (Ld246.saveSeenArticles (LL := Cases.ld246Lib) Sample.ld246Seen
            Sample.disk))
    = {["X" := Ld246.mkState 100 1]}
  ∧ mapGet
      (Ld246.seenMessages
         (Ld246.loadSeenMessages (LL := Cases.ld246Lib) Sample.ld246
            (Ld246.saveSeenMessages (LL := Cases.ld246Lib) Cases.ld246Messages
               Sample.disk))) "at_1" = true.
Proof.
  assert (H : healthy Sample.disk) by (by repeat split).
  split; [exact H|]. split.
  - exact (proj1 (state_files_roundtrip (LL := Cases.ld246Lib) Sample.ld246Seen
                    Sample.ld246 Sample.disk H)
                 "states" eq_refl eq_refl eq_refl).
  - apply (proj2 (state_files_roundtrip (LL := Cases.ld246Lib) Cases.ld246Messages
                    Sample.ld246 Sample.disk H)
                 "ids" eq_refl eq_refl eq_refl "at_1").
    by eexists.
Defined.

Lemma deliverAndAdd_again_witness :
  let deliver := Scheduler.deliverAndAdd (SL := Sample.schedulerLib)
                   Sample.reliableSink Sample.abs in
  let '(s1, d1) := deliver Sample.scheduler Sample.disk [Sample.nA; Sample.nB] in
  Notifier.IsNotified (Scheduler.notifier s1) "b" = true
  ∧ Scheduler.notifier (deliver s1 d1 [Sample.nA; Sample.nB]).1
    = Scheduler.notifier s1.
Proof.
  intros deliver.
  pose proof (deliverAndAdd_again (SL := Sample.schedulerLib) Sample.reliableSink
                Sample.abs Sample.scheduler Sample.disk [Sample.nA; Sample.nB]
                (λ _ _, eq_refl)) as H.
  subst deliver.
  destruct (Scheduler.deliverAndAdd _ _ Sample.scheduler Sample.disk _) as [s1 d1].
  destruct H as [Hall Hsame]. split; [|exact Hsame].
  apply (Hall Sample.nB). apply elem_of_cons. right. apply list_elem_of_here.
Defined.



Lemma SaveConfig_outcome_witness :
  Config.validateConfig (Cases.config 5 "info") ≠ None
  ∧ let '(a', _, _, err) :=
      App.SaveConfig (LL := Sample.ld246Lib) (VL := Cases.viperLib) Cases.app
        Cases.configState Sample.disk (Cases.config 5 "info") in
    a' = Cases.app ∧ err ≠ None.
Proof.
  assert (Hv : Config.validateConfig (Cases.config 5 "info") ≠ None) by done.
  split; [exact Hv|].
  pose proof (SaveConfig_outcome (LL := Sample.ld246Lib) (VL := Cases.viperLib)
                Cases.app Cases.configState Sample.disk (Cases.config 5 "info"))
    as H.
  destruct (App.SaveConfig _ _ _ _) as [[[a' st'] d'] err].
  destruct H as (H1 & H2 & _). destruct (H2 Hv) as (He & _).
  split; [by apply H1|exact He].
Defined.
